(** * mathbot calculator: the command-line driver ([calculator/__main__.py])

    A shallow embedding of the driver of the calculator: the rendering of
    a source window around a fault offset ([format_error_place]), the
    script-name shorthand ([proc_filename]), the file mode of [main] and
    the interactive loop ([interactive_terminal]).

    Python values are modelled as the code has them: [int] as [Z], [str]
    as [string], lists as [list] indexed the way Python indexes them (a
    negative index counts from the end, an index out of range raises
    [IndexError]).  A computation either returns, raises, or never
    returns ([outcome]). *)

From Stdlib Require Import ZArith List String Ascii Bool Lia DecimalString.
Import ListNotations.

Open Scope string_scope.
Open Scope Z_scope.

(** ** Exceptions and outcomes *)

(** Modelled from the spec: the linking record of an evaluation fault
    ([e._linking]), which carries the originating name, the originating
    source text and the source offset; these are the keys ['name'],
    ['code'] and ['position'] the interactive loop reads.  The class is
    declared in [calculator/errors.py], which is not among the sources. *)
Record linking := {
  lk_name : string;
  lk_code : string;
  lk_position : Z
}.

(** Modelled from the spec: the faults of the calculator, declared in
    [calculator/parser.py] and [calculator/errors.py], which are not
    among the sources.  A tokenization fault and a parse fault carry an
    offset, an evaluation fault a message and an optional linking
    record.  [ParseFailed], [TokenizationFailed] and [EvaluationError]
    are separate classes, each with its own [except] clause in the
    interactive loop.  The other constructors are the exceptions of
    Python the driver can meet: [TimeoutError] is
    [asyncio.TimeoutError].
    [BaseOnly] stands for the exceptions that derive from
    [BaseException] but not from [Exception] ([KeyboardInterrupt],
    [SystemExit]); [OtherException] for any further subclass of
    [Exception]. *)
Inductive exn : Type :=
| ParseFailed (position : Z)
| TokenizationFailed (position : Z)
| EvaluationError (message : string) (_linking : option linking)
| IndexError
| KeyError (key : string)
| ValueError
| OverflowError
| UnboundLocalError (name : string)
| EOFError
| TimeoutError
| OtherException (name : string)
| BaseOnly (name : string).

(** [isinstance(e, Exception)]. *)
Definition is_Exception (e : exn) : bool :=
  match e with
  | BaseOnly _ => false
  | _ => true
  end.

Inductive outcome (A : Type) : Type :=
| Ret (a : A)
| Raise (e : exn)
| Diverge.

Arguments Ret {A} a.
Arguments Raise {A} e.
Arguments Diverge {A}.

Definition obind {A B : Type} (m : outcome A) (k : A -> outcome B) : outcome B :=
  match m with
  | Ret a => k a
  | Raise e => Raise e
  | Diverge => Diverge
  end.

Declare Scope outcome_scope.
Delimit Scope outcome_scope with outcome.
Notation "x <- m ;; k" := (obind m (fun x => k))
  (at level 61, m at next level, right associativity) : outcome_scope.
Notation "' p <- m ;; k" := (obind m (fun x => match x with p => k end))
  (at level 61, p pattern, m at next level, right associativity) : outcome_scope.

(** ** Python primitives *)

Module Py.

(** The line feed, ['\n']. *)
Definition nl : ascii := "010"%char.
Definition NL : string := String nl "".

Definition len_str (s : string) : Z := Z.of_nat (String.length s).
Definition len {A : Type} (l : list A) : Z := Z.of_nat (List.length l).

(** [str(n)] for an [int]. *)
Definition str_of_int (n : Z) : string := NilZero.string_of_int (Z.to_int n).

(** [n] copies of [s]. *)
Fixpoint repeat_str (s : string) (n : nat) : string :=
  match n with
  | O => ""
  | S n' => s ++ repeat_str s n'
  end.

(** The text of [n] copies of [s], none when [n] is negative.  This
    is the value of [s * n] when the operator returns; the operator
    itself is [str_times] below. *)
Definition str_mul (s : string) (n : Z) : string := repeat_str s (Z.to_nat n).

(** [sys.maxsize], the largest index, on a 64 bit build. *)
Definition maxsize : Z := 2 ^ 63 - 1.

(** [s * n]: the count is converted to an index first, and
    [OverflowError] is raised when it does not fit, on either side.
    Memory is not modelled: a count that fits is served. *)
Definition str_times (s : string) (n : Z) : outcome string :=
  if (n <? - maxsize - 1) || (maxsize <? n) then Raise OverflowError
  else Ret (str_mul s n).

(** [l[i]] on a list. *)
Definition getitem {A : Type} (l : list A) (i : Z) : outcome A :=
  let j := if i <? 0 then i + len l else i in
  if j <? 0 then Raise IndexError
  else match nth_error l (Z.to_nat j) with
       | Some a => Ret a
       | None => Raise IndexError
       end.

(** [s[i]] on a string. *)
Definition str_getitem (s : string) (i : Z) : outcome ascii :=
  let j := if i <? 0 then i + len_str s else i in
  if j <? 0 then Raise IndexError
  else match String.get (Z.to_nat j) s with
       | Some c => Ret c
       | None => Raise IndexError
       end.

(** [s[i:]] on a string: the start is clamped, a slice never raises. *)
Definition str_slice_from (s : string) (i : Z) : string :=
  let j := if i <? 0 then Z.max 0 (i + len_str s) else i in
  let n := Z.to_nat j in
  substring n (String.length s - n) s.

(** [s.split(sep)] for a separator of one character. *)
Fixpoint split (sep : ascii) (s : string) : list string :=
  match s with
  | EmptyString => [""]
  | String c s' =>
      if Ascii.eqb c sep then "" :: split sep s'
      else match split sep s' with
           | h :: t => String c h :: t
           | [] => [String c ""]
           end
  end.

(** [sep.join(l)]. *)
Definition join (sep : string) (l : list string) : string := String.concat sep l.

(** Values that are formatted into a template. *)
Inductive pyval : Type :=
| VInt (n : Z)
| VStr (s : string).

Definition str (v : pyval) : string :=
  match v with
  | VInt n => str_of_int n
  | VStr s => s
  end.

(** Padding to a minimal width: strings are aligned to the left,
    numbers to the right. *)
Definition pad (width : nat) (v : pyval) : string :=
  let s := str v in
  let fill := repeat_str " " (width - String.length s) in
  match v with
  | VInt _ => fill ++ s
  | VStr _ => s ++ fill
  end.

(** A replacement field is [name], [name:width], [:width] or empty. *)
Fixpoint split_field (f : string) : string * option string :=
  match f with
  | EmptyString => ("", None)
  | String c f' =>
      if Ascii.eqb c ":"%char then ("", Some f')
      else let '(n, w) := split_field f' in (String c n, w)
  end.

Fixpoint lookup (k : string) (kwargs : list (string * pyval)) : outcome pyval :=
  match kwargs with
  | [] => Raise (KeyError k)
  | (k', v) :: rest => if String.eqb k k' then Ret v else lookup k rest
  end.

Definition render_field (f : string) (auto : nat)
    (args : list pyval) (kwargs : list (string * pyval)) : outcome (string * nat) :=
  let '(name, spec) := split_field f in
  obind (if String.eqb name ""
         then obind (getitem args (Z.of_nat auto)) (fun v => Ret (v, S auto))
         else obind (lookup name kwargs) (fun v => Ret (v, auto)))
    (fun '(v, auto') =>
       match spec with
       | None => Ret (str v, auto')
       | Some w =>
           match NilEmpty.uint_of_string w with
           | Some d => Ret (pad (Nat.of_uint d) v, auto')
           | None => Raise ValueError
           end
       end).

(** [str.format] with positional and keyword arguments, for templates made of literal
    text and replacement fields of the shapes above (the shapes the
    driver's two templates use).  [field] holds the text of the field
    being read, when inside braces. *)
Fixpoint format_scan (t : string) (field : option string) (auto : nat)
    (args : list pyval) (kwargs : list (string * pyval)) : outcome string :=
  match t with
  | EmptyString =>
      match field with
      | None => Ret ""
      | Some _ => Raise ValueError
      end
  | String c t' =>
      match field with
      | None =>
          if Ascii.eqb c "{"%char then format_scan t' (Some "") auto args kwargs
          else if Ascii.eqb c "}"%char then Raise ValueError
          else obind (format_scan t' None auto args kwargs)
                 (fun r => Ret (String c r))
      | Some f =>
          if Ascii.eqb c "}"%char
          then obind (render_field f auto args kwargs)
                 (fun '(v, auto') =>
                    obind (format_scan t' None auto' args kwargs)
                      (fun r => Ret (v ++ r)))
          else format_scan t' (Some (f ++ String c "")) auto args kwargs
      end
  end.

Definition format (t : string) (args : list pyval)
    (kwargs : list (string * pyval)) : outcome string :=
  format_scan t None 0 args kwargs.

(** [print] of some strings: the text written to standard output. *)
Definition print_text (args : list string) : string := join " " args ++ NL.

End Py.

Import Py.

(** ** The error window *)

Definition ERROR_TEMPLATE : string :=
  "On line {line_num} at position {position}" ++ NL ++
  "{prev}" ++ NL ++
  "{cur}" ++ NL ++
  "{carat}" ++ NL ++
  "{next}" ++ NL.

(** The [while] loop of [format_error_place], on the local variables
    [line] and [position].  Every iteration advances [line], which is
    bounded by [len(lines) - 2]; [fuel] bounds the iterations. *)
Fixpoint seek_line (fuel : nat) (lines : list string) (line position : Z)
    : outcome (Z * Z) :=
  match fuel with
  | O => Diverge
  | S fuel' =>
      if line <? len lines - 2 then
        obind (getitem lines line) (fun cur =>
          if position >? len_str cur then
            obind (getitem lines line) (fun cur' =>
              seek_line fuel' lines (line + 1) (position - (len_str cur' + 1)))
          else Ret (line, position))
      else Ret (line, position)
  end.

Definition format_error_place (string0 : string) (position : Z) : outcome string :=
  let lines := ([""] ++ split nl string0 ++ [""])%list in
  obind (seek_line (List.length lines) lines 1 position) (fun '(line, position) =>
  obind (getitem lines (line - 1)) (fun prev =>
  obind (getitem lines line) (fun cur =>
  obind (getitem lines (line + 1)) (fun next =>
  obind (str_times " " position) (fun spaces =>
    format ERROR_TEMPLATE []
      [ ("line_num", VInt line);
        ("position", VInt position);
        ("prev", VStr prev);
        ("cur", VStr cur);
        ("next", VStr next);
        ("carat", VStr (spaces ++ "^")) ]))))).

(** ** Script names *)

Definition proc_filename (filename : string) : outcome string :=
  obind (str_getitem filename 0) (fun c =>
    if Ascii.eqb c "+"%char
    then Ret ("./calculator/scripts/" ++ str_slice_from filename 1 ++ ".c5")
    else Ret filename).

(** ** The collaborators of the driver *)

(** The trees handed around by the driver are Python dicts: either the
    tree the parser returned, or a dict built by the driver itself with
    a ['#'] tag and, optionally, a list of ['items']. *)
#[local] Set Warnings "-register-all".
Inductive tree (A : Type) : Type :=
| Parsed (a : A)
| Dict (tag : string) (items : option (list (tree A))).

Arguments Parsed {A} a.
Arguments Dict {A} tag items.

(** An [Interpereter] object as the driver sees it: the [trace]
    attribute it reads and assigns, and the rest of the object (program,
    bindings, calling cache). *)
Record Obj (M : Type) : Type := {
  trace : bool;
  machine : M
}.

Arguments trace {M} o.
Arguments machine {M} o.

(** A coroutine as the event loop sees it: the wall-clock seconds it
    needs to complete ([None] when it never completes on its own), the
    state and outcome on completion, and the state it leaves behind
    when it is cancelled. *)
Record coroutine (S V : Type) : Type := {
  needs : option Z;
  completes : S * outcome V;
  cancelled : S
}.

Arguments needs {S V} c.
Arguments completes {S V} c.
Arguments cancelled {S V} c.

(** What driving a coroutine under [asyncio.wait_for] ends in. *)
Inductive awaited (S V : Type) : Type :=
| Completed (s : S) (r : outcome V)
| TimedOut (s : S)
| Never.

Arguments Completed {S V} s r.
Arguments TimedOut {S V} s.
Arguments Never {S V}.

(** [loop.run_until_complete(asyncio.wait_for(c, timeout))]: the task
    runs to completion when it completes within the timeout (or when
    there is none); on expiry the task is cancelled and
    [asyncio.TimeoutError] is raised to the caller. *)
Definition wait_for {S V : Type} (c : coroutine S V) (timeout : option Z)
    : awaited S V :=
  match timeout, needs c with
  | None, Some _ => Completed (fst (completes c)) (snd (completes c))
  | None, None => Never
  | Some t, Some d =>
      if d <=? t then Completed (fst (completes c)) (snd (completes c))
      else TimedOut (cancelled c)
  | Some t, None => TimedOut (cancelled c)
  end.

(** The namespace [argparse] returns. *)
Record Args : Type := {
  args_filename : string;
  args_trace : bool;
  args_compile : bool
}.

(** The modules of the calculator package the driver imports
    ([calculator.parser], [calculator.bytecode], [calculator.runtime],
    [calculator.interpereter]) and [json.dumps], as an interface. *)
Record Calculator : Type := {
  Tokens : Type;
  Ast : Type;
  Builder : Type;
  Program : Type;
  Machine : Type;
  Value : Type;
  Key : Type;
  parse : string -> string -> outcome (Tokens * Ast);
  json_dumps : tree Ast -> outcome string;
  CodeBuilder : Builder;
  wrap_with_runtime : Builder -> option (tree Ast) -> option bool -> outcome Program;
  dump : Program -> outcome string;
  Interpereter : Program -> option bool -> option Builder -> outcome (Obj Machine);
  run : Obj Machine -> Obj Machine * outcome (option Value);
  prepare_extra_code : tree Ast -> Obj Machine -> Obj Machine * outcome unit;
  run_async : Obj Machine -> coroutine (Obj Machine) (option Value);
  calling_cache_items : Obj Machine -> list (Key * Value);
  str_key : Key -> string;
  str_value : Value -> string
}.

(** The process environment: [sys.argv], what [argparse] makes of it
    with the parser of [parse_arguments] (a positional [filename] and
    the mutually exclusive [-t/--trace] and [-c/--compile]), the files,
    and the lines standard input will deliver. *)
Record Host : Type := {
  argv : list string;
  parse_args : list string -> outcome Args;
  read_file : string -> outcome string;
  stdin : list string
}.

(** ** The driver *)

Section Driver.

Context (C : Calculator).

Abbreviation obj := (Obj (Machine C)).
Abbreviation ast_tree := (tree (Ast C)).

(** Calls into the collaborators, in the order they are made. *)
Inductive event : Type :=
| EvOpen (filename : string)
| EvParse (code source_name : string)
| EvJsonDumps
| EvWrap (ast : option ast_tree) (exportable : option bool)
| EvDump
| EvInterpereter (oid : nat)
| EvRun (oid : nat)
| EvPrepare (oid : nat) (code : ast_tree)
| EvRunAsync (oid : nat)
| EvWaitFor (oid : nat) (timeout : option Z)
| EvCancel (oid : nat).

(** The state of the process: the chunks written to standard output,
    the exceptions whose traceback was printed, the calls made so far,
    and the [Interpereter] objects created so far (an object is
    referred to by its index). *)
Record world : Type := {
  stdout : list string;
  tracebacks : list exn;
  calls : list event;
  heap : list obj
}.

Definition initial : world :=
  {| stdout := []; tracebacks := []; calls := []; heap := [] |}.

Definition M (A : Type) : Type := world -> world * outcome A.

Definition ret {A : Type} (a : A) : M A := fun w => (w, Ret a).
Definition raise {A : Type} (e : exn) : M A := fun w => (w, Raise e).
Definition lift {A : Type} (o : outcome A) : M A := fun w => (w, o).

Definition bind {A B : Type} (m : M A) (k : A -> M B) : M B :=
  fun w =>
    match m w with
    | (w', Ret a) => k a w'
    | (w', Raise e) => (w', Raise e)
    | (w', Diverge) => (w', Diverge)
    end.

(** [try: m except ...: h]; the handler decides which exceptions it
    takes and raises the others again. *)
Definition try_except {A : Type} (m : M A) (h : exn -> M A) : M A :=
  fun w =>
    match m w with
    | (w', Raise e) => h e w'
    | r => r
    end.

Notation "x <- m ;; k" := (bind m (fun x => k))
  (at level 61, m at next level, right associativity).
Notation "' p <- m ;; k" := (bind m (fun x => match x with p => k end))
  (at level 61, p pattern, m at next level, right associativity).
Notation "m ;; k" := (bind m (fun _ => k))
  (at level 61, right associativity).

Definition write (s : string) : M unit :=
  fun w => ({| stdout := (stdout w ++ [s])%list; tracebacks := tracebacks w;
               calls := calls w; heap := heap w |}, Ret tt).

Definition print (args : list string) : M unit := write (print_text args).

(** [traceback.print_exc()]. *)
Definition print_exc (e : exn) : M unit :=
  fun w => ({| stdout := stdout w; tracebacks := (tracebacks w ++ [e])%list;
               calls := calls w; heap := heap w |}, Ret tt).

Definition emit (ev : event) : M unit :=
  fun w => ({| stdout := stdout w; tracebacks := tracebacks w;
               calls := (calls w ++ [ev])%list; heap := heap w |}, Ret tt).

Definition call {A : Type} (ev : event) (o : outcome A) : M A :=
  emit ev ;; lift o.

Fixpoint set_nth {A : Type} (l : list A) (i : nat) (a : A) : list A :=
  match l, i with
  | [], _ => []
  | _ :: t, O => a :: t
  | h :: t, S i' => h :: set_nth t i' a
  end.

(** Allocation of a new object. *)
Definition alloc (o : obj) : M nat :=
  fun w => ({| stdout := stdout w; tracebacks := tracebacks w;
               calls := calls w; heap := (heap w ++ [o])%list |},
            Ret (List.length (heap w))).

Definition load (oid : nat) : M obj :=
  fun w =>
    match nth_error (heap w) oid with
    | Some o => (w, Ret o)
    | None => (w, Raise (OtherException "ReferenceError"))
    end.

Definition store (oid : nat) (o : obj) : M unit :=
  fun w => ({| stdout := stdout w; tracebacks := tracebacks w;
               calls := calls w; heap := set_nth (heap w) oid o |}, Ret tt).

(** A method call on the object [oid]: the object is updated whether
    the method returns or raises. *)
Definition method {A : Type} (oid : nat) (ev : event)
    (f : obj -> obj * outcome A) : M A :=
  o <- load oid ;;
  emit ev ;;
  store oid (fst (f o)) ;;
  lift (snd (f o)).

(** [Interpereter(program, trace = ..., builder = ...)]. *)
Definition new_Interpereter (program : Program C) (trace_kw : option bool)
    (builder_kw : option (Builder C)) : M nat :=
  fun w =>
    (emit (EvInterpereter (List.length (heap w))) ;;
     o <- lift (Interpereter C program trace_kw builder_kw) ;;
     alloc o) w.

(** A pending [run_async()] coroutine of the object [target]. *)
Record future : Type := {
  target : nat;
  body : coroutine obj (option (Value C))
}.

Definition call_run_async (oid : nat) : M future :=
  o <- load oid ;;
  emit (EvRunAsync oid) ;;
  ret {| target := oid; body := run_async C o |}.

Definition run_with_timeout (fut : future) (timeout : option Z)
    : M (option (Value C)) :=
  emit (EvWaitFor (target fut) timeout) ;;
  match wait_for (body fut) timeout with
  | Completed o r => store (target fut) o ;; lift r
  | TimedOut o =>
      store (target fut) o ;; emit (EvCancel (target fut)) ;; raise TimeoutError
  | Never => lift Diverge
  end.

(** [str(result)], where the result may be [None]. *)
Definition str_result (r : option (Value C)) : string :=
  match r with
  | None => "None"
  | Some v => str_value C v
  end.

(** *** File mode *)

Definition parse_arguments (h : Host) : outcome Args :=
  parse_args h (tl (argv h)).

(** Lines 31 to 33 of [main]: up to the point where [code] is bound. *)
Definition load_source (h : Host) : M (Args * string * string) :=
  args <- lift (parse_arguments h) ;;
  filename <- lift (proc_filename (args_filename args)) ;;
  code <- call (EvOpen filename) (read_file h filename) ;;
  ret (args, filename, code).

(** Lines 34 to 41 of [main]. *)
Definition run_source (args : Args) (filename code : string) : M unit :=
  ' (tokens, ast) <- call (EvParse code filename) (parse C code filename) ;;
  btc <- call (EvWrap (Some (Parsed ast)) (Some (args_compile args)))
           (wrap_with_runtime C (CodeBuilder C) (Some (Parsed ast))
              (Some (args_compile args))) ;;
  if args_compile args then
    d <- call EvDump (dump C btc) ;;
    print [d]
  else
    interpereter <- new_Interpereter btc (Some (args_trace args)) None ;;
    result <- method interpereter (EvRun interpereter) (run C) ;;
    print [str_result result].

(** The [except parser.ParseFailed] clause of [main]; [code] is unbound
    when the exception was raised before line 33 completed. *)
Definition main_except (code : option string) (e : exn) : M unit :=
  match e with
  | ParseFailed position =>
      match code with
      | Some code =>
          place <- lift (format_error_place code position) ;;
          print [place]
      | None => raise (UnboundLocalError "code")
      end
  | _ => raise e
  end.

Definition main_file (h : Host) : M unit :=
  fun w =>
    match load_source h w with
    | (w1, Ret (args, filename, code)) =>
        try_except (run_source args filename code) (main_except (Some code)) w1
    | (w1, Raise e) => main_except None e w1
    | (w1, Diverge) => (w1, Diverge)
    end.

(** *** The token display *)

(** The object [print_token_parse_caret] takes: the token texts and the
    index of the rightmost parse point. *)
Record token_output : Type := {
  to_tokens : list string;
  to_rightmost : Z
}.

(** [l[:i]] on a list. *)
Definition slice_to {A : Type} (l : list A) (i : Z) : list A :=
  let j := if i <? 0 then Z.max 0 (i + len l) else i in
  firstn (Z.to_nat j) l.

Definition sum (l : list Z) : Z := fold_left Z.add l 0.

Definition print_token_parse_caret (to : token_output) : M unit :=
  print [join " " (to_tokens to)] ;;
  spaces <- lift (str_times " "
                    (sum (map len_str (slice_to (to_tokens to) (to_rightmost to)))
                     + to_rightmost to)) ;;
  print [spaces ++ "^"].

(** *** The interactive loop *)

(** The local variables of [interactive_terminal] that the loop reads
    or assigns. *)
Record locals : Type := {
  show_tree : bool;
  show_parsepoint : bool;
  interpereter : nat;
  line_count : Z
}.

(** The [for] loop of the [:cache] command. *)
Fixpoint print_cache (items : list (Key C * Value C)) : M unit :=
  match items with
  | [] => ret tt
  | (key, value) :: rest =>
      row <- lift (format "{:40} : {:20}"
                     [VStr (str_key C key); VStr (str_value C value)] []) ;;
      print [row] ;;
      print_cache rest
  end.

(** The body of the [try] statement, lines 114 to 126. *)
Definition try_body (st : locals) (line : string) : M unit :=
  ' (tokens, ast) <- call (EvParse line ("iterm_" ++ str_of_int (line_count st)))
                       (parse C line ("iterm_" ++ str_of_int (line_count st))) ;;
  (if show_tree st then
     text <- call EvJsonDumps (json_dumps C (Parsed ast)) ;;
     print [text]
   else ret tt) ;;
  let ast := Dict "program" (Some [Parsed ast; Dict "end" None]) in
  method (interpereter st)
    (EvPrepare (interpereter st) (Dict "program" (Some [ast])))
    (prepare_extra_code C (Dict "program" (Some [ast]))) ;;
  fut <- call_run_async (interpereter st) ;;
  result <- run_with_timeout fut (Some 5) ;;
  match result with
  | Some v => print [str_value C v]
  | None => ret tt
  end.

(** The [except] clauses, lines 127 to 144, tried in order. *)
Definition except_clauses (line : string) (e : exn) : M unit :=
  match e with
  | EvaluationError message dbg =>
      match dbg with
      | None => print ["No debugging information available for this error."]
      | Some dbg =>
          print ["Runtime error in"; lk_name dbg] ;;
          place <- lift (format_error_place (lk_code dbg) (lk_position dbg)) ;;
          print [place]
      end ;;
      print [message] ;;
      rule <- lift (str_times "-" (len_str message)) ;;
      print [rule; NL]
  | ParseFailed position =>
      print ["Parse error"] ;;
      place <- lift (format_error_place line position) ;;
      print [place]
  | TokenizationFailed position =>
      print ["Tokenization error"] ;;
      place <- lift (format_error_place line position) ;;
      print [place]
  | _ => if is_Exception e then print_exc e else raise e
  end.

(** [line_count += 1]. *)
Definition count_line (st : locals) : locals :=
  {| show_tree := show_tree st; show_parsepoint := show_parsepoint st;
     interpereter := interpereter st; line_count := line_count st + 1 |}.

(** One iteration of the [while True] loop on the line [input] has
    returned: [None] when the loop is left by [break], the locals for
    the next iteration otherwise. *)
Definition step (st : locals) (line : string) : M (option locals) :=
  let st := count_line st in
  if String.eqb line "" then ret None
  else if String.eqb line ":tree" then
    ret (Some {| show_tree := negb (show_tree st);
                 show_parsepoint := show_parsepoint st;
                 interpereter := interpereter st;
                 line_count := line_count st |})
  else if String.eqb line ":parsepoint" then
    ret (Some {| show_tree := show_tree st;
                 show_parsepoint := negb (show_parsepoint st);
                 interpereter := interpereter st;
                 line_count := line_count st |})
  else if String.eqb line ":trace" then
    o <- load (interpereter st) ;;
    store (interpereter st) {| trace := negb (trace o); machine := machine o |} ;;
    ret (Some st)
  else if String.eqb line ":cache" then
    o <- load (interpereter st) ;;
    print_cache (calling_cache_items C o) ;;
    ret (Some st)
  else
    try_except (try_body st line) (except_clauses line) ;;
    ret (Some st).

(** The [while True] loop over the lines standard input delivers.
    [input] writes its prompt, then takes a line; at the end of input
    it raises [EOFError], which nothing catches. *)
Fixpoint repl (lines : list string) (st : locals) : M unit :=
  write "> " ;;
  match lines with
  | [] => raise EOFError
  | line :: rest =>
      next <- step st line ;;
      match next with
      | None => ret tt
      | Some st' => repl rest st'
      end
  end.

Definition interactive_terminal (lines : list string) : M unit :=
  let builder := CodeBuilder C in
  runtime <- call (EvWrap None None) (wrap_with_runtime C builder None None) ;;
  interpereter <- new_Interpereter runtime None (Some builder) ;;
  method interpereter (EvRun interpereter) (run C) ;;
  repl lines {| show_tree := false; show_parsepoint := false;
                interpereter := interpereter; line_count := 0 |}.

Definition main (h : Host) : M unit :=
  if len (argv h) =? 1 then interactive_terminal (stdin h)
  else main_file h.

End Driver.

Arguments stdout {C} w.
Arguments tracebacks {C} w.
Arguments calls {C} w.
Arguments heap {C} w.

(** ** Notions used to state the properties *)

(** The number of line feeds among the first [n] characters of [s]:
    the index, from 0, of the line the offset [n] lies in. *)
Fixpoint newlines_before (s : string) (n : nat) : nat :=
  match n, s with
  | S n', String c s' =>
      if Ascii.eqb c nl then S (newlines_before s' n') else newlines_before s' n'
  | _, _ => O
  end.

(** The number of characters between the last line feed among the
    first [n] characters of [s] (or the start of [s]) and the offset
    [n]; [col] counts the characters already passed on the line. *)
Fixpoint column_from (col : nat) (s : string) (n : nat) : nat :=
  match n, s with
  | S n', String c s' =>
      if Ascii.eqb c nl then column_from O s' n' else column_from (S col) s' n'
  | _, _ => col
  end.

Definition offset_line (s : string) (n : nat) : nat := newlines_before s n.
Definition offset_column (s : string) (n : nat) : nat := column_from O s n.

(** The [k]-th line of [s], from 0; empty when there is no such line. *)
Definition line_at (s : string) (k : nat) : string := nth k (split nl s) "".

(** The line before the [k]-th; empty before the first. *)
Definition line_before (s : string) (k : nat) : string :=
  match k with
  | O => ""
  | S k' => line_at s k'
  end.

(** The window, as text. *)
Definition window (line_num position : Z) (prev cur next : string) : string :=
  "On line " ++ str_of_int line_num ++ " at position " ++ str_of_int position ++ NL ++
  prev ++ NL ++
  cur ++ NL ++
  (str_mul " " position ++ "^") ++ NL ++
  next ++ NL.

(** The line and column the loop of [format_error_place] stops at, on
    the lines themselves: a line is passed when the offset lies beyond
    its end and it is not the last. *)
Fixpoint locate (ls : list string) (n : nat) : nat * nat :=
  match ls with
  | [] => (O, n)
  | l :: rest =>
      match rest with
      | [] => (O, n)
      | _ :: _ =>
          if (String.length l <? n)%nat
          then let '(k, c) := locate rest (n - (String.length l + 1)) in (S k, c)
          else (O, n)
      end
  end.

(** The offset at which the [k]-th of the lines starts. *)
Fixpoint line_start (ls : list string) (k : nat) : nat :=
  match k, ls with
  | S k', l :: rest => (String.length l + 1 + line_start rest k')%nat
  | _, _ => O
  end.

(** The integers that fit an index: the counts [s * n] accepts. *)
Definition fits_index (n : Z) : Prop := - maxsize - 1 <= n <= maxsize.

(** The strings Python can hold: the length is an index. *)
Definition is_str (s : string) : Prop := len_str s <= maxsize.

(** The faults whose offsets are indices and whose message is a
    string Python can hold. *)
Definition well_formed_fault (e : exn) : Prop :=
  match e with
  | ParseFailed position | TokenizationFailed position => fits_index position
  | EvaluationError message dbg =>
      is_str message
      /\ match dbg with
         | Some dbg => fits_index (lk_position dbg)
         | None => True
         end
  | _ => True
  end.


(** The width of some tokens when each is followed by one separator:
    the column at which the token after them starts in the joined
    line. *)
Fixpoint tokens_width (tokens : list string) : nat :=
  match tokens with
  | [] => O
  | t :: rest => (String.length t + 1 + tokens_width rest)%nat
  end.

(** The input lines that are neither the end of the session nor a
    command. *)
Definition is_source_line (line : string) : bool :=
  negb (String.eqb line "" || String.eqb line ":tree"
        || String.eqb line ":parsepoint" || String.eqb line ":trace"
        || String.eqb line ":cache").

(** The three faults of the calculator itself. *)
Definition is_calculator_fault (e : exn) : bool :=
  match e with
  | ParseFailed _ | TokenizationFailed _ | EvaluationError _ _ => true
  | _ => false
  end.

(** The calls that create an interpreter or execute a program. *)
Definition is_execution {C : Calculator} (ev : event C) : bool :=
  match ev with
  | EvInterpereter _ _ | EvRun _ _ | EvPrepare _ _ _
  | EvRunAsync _ _ | EvWaitFor _ _ _ | EvCancel _ _ => true
  | _ => false
  end.

(** The call that dumps a compiled program. *)
Definition is_dump {C : Calculator} (ev : event C) : bool :=
  match ev with
  | EvDump _ => true
  | _ => false
  end.

(** The calls that hand text to the parser or execute a program. *)
Definition is_evaluation {C : Calculator} (ev : event C) : bool :=
  match ev with
  | EvParse _ _ _ => true
  | _ => is_execution ev
  end.

Definition add_stdout {C : Calculator} (w : world C) (out : list string) : world C :=
  {| stdout := (stdout w ++ out)%list; tracebacks := tracebacks w;
     calls := calls w; heap := heap w |}.

(** The world once [input] has written its prompt. *)
Definition prompted {C : Calculator} (w : world C) : world C := add_stdout w ["> "].

(** The dict the interactive loop hands to [prepare_extra_code]. *)
Definition prepared {A : Type} (ast : A) : tree A :=
  Dict "program" (Some [Dict "program" (Some [Parsed ast; Dict "end" None])]).

(** The row the [:cache] command prints for an entry. *)
Definition cache_row {C : Calculator} (entry : Key C * Value C) : string :=
  print_text [pad 40 (VStr (str_key C (fst entry))) ++ " : "
              ++ pad 20 (VStr (str_value C (snd entry)))].

Definition with_show_parsepoint (b : bool) (st : locals) : locals :=
  {| show_tree := show_tree st; show_parsepoint := b;
     interpereter := interpereter st; line_count := line_count st |}.

(** ** A small calculator

    An instance of the collaborators on which the statements below are
    exercised: the text ["$"] does not tokenize, a text that starts
    with [")"] does not parse, ["boom"] and ["oops"] fault when they
    are evaluated (the second with a linking record), ["loop"] never
    completes, and any other text evaluates to its length. *)

Module Toy.

Definition source_of (t : tree string) : string :=
  match t with
  | Parsed src => src
  | Dict _ (Some (Dict _ (Some (Parsed src :: _)) :: _)) => src
  | _ => ""
  end.

Definition parse_text (code source_name : string) : outcome (list string * string) :=
  if String.prefix "$" code then Raise (TokenizationFailed 0)
  else if String.prefix ")" code then Raise (ParseFailed 0)
  else Ret ([code], code).

Definition evaluate (src : string) : outcome (option Z) :=
  if String.eqb src "boom" then Raise (EvaluationError "boom" None)
  else if String.eqb src "oops" then
    Raise (EvaluationError "oops"
             (Some {| lk_name := "iterm_1"; lk_code := "oops"; lk_position := 2 |}))
  else Ret (Some (len_str src)).

Definition coroutine_of (o : Obj (list string)) : coroutine (Obj (list string)) (option Z) :=
  match machine o with
  | [] => {| needs := Some 0; completes := (o, Ret None); cancelled := o |}
  | src :: _ =>
      {| needs := if String.eqb src "loop" then None else Some 0;
         completes := (o, evaluate src);
         cancelled := o |}
  end.

Definition calculator : Calculator :=
  {| Tokens := list string;
     Ast := string;
     Builder := unit;
     Program := list string;
     Machine := list string;
     Value := Z;
     Key := string;
     parse := parse_text;
     json_dumps := fun t => Ret ("{" ++ source_of t ++ "}");
     CodeBuilder := tt;
     wrap_with_runtime := fun _ t _ =>
       Ret (match t with Some t => [source_of t] | None => [] end);
     dump := fun p => Ret (String.concat ";" p);
     Interpereter := fun p tr _ =>
       Ret {| trace := match tr with Some b => b | None => false end;
              machine := p |};
     run := fun o =>
       (o, match machine o with
           | [] => Ret None
           | src :: _ => evaluate src
           end);
     prepare_extra_code := fun t o =>
       ({| trace := trace o; machine := source_of t :: machine o |}, Ret tt);
     run_async := coroutine_of;
     calling_cache_items := fun o => map (fun src => (src, len_str src)) (machine o);
     str_key := fun k => k;
     str_value := str_of_int |}.

(** A host that runs the file [prog], whose text is [code], with the
    given flags. *)
Definition host (code : string) (trace_flag compile_flag : bool) : Host :=
  {| argv := ["calculator"; "prog"];
     parse_args := fun rest =>
       Ret {| args_filename := hd "" rest;
              args_trace := trace_flag;
              args_compile := compile_flag |};
     read_file := fun _ => Ret code;
     stdin := [] |}.

(** The locals and the world of a session that has just started. *)
Definition started : locals :=
  {| show_tree := false; show_parsepoint := false;
     interpereter := 0; line_count := 0 |}.

Definition booted : world calculator :=
  {| stdout := []; tracebacks := [];
     calls := [EvWrap calculator None None; EvInterpereter calculator 0;
               EvRun calculator 0];
     heap := [{| trace := false; machine := [] |}] |}.

End Toy.

(** The small calculator with a run that is interrupted from the
    keyboard: the exception raised is not an [Exception]. *)

Module Interrupt.

Definition calculator : Calculator :=
  {| Tokens := list string;
     Ast := string;
     Builder := unit;
     Program := list string;
     Machine := list string;
     Value := Z;
     Key := string;
     parse := Toy.parse_text;
     json_dumps := json_dumps Toy.calculator;
     CodeBuilder := tt;
     wrap_with_runtime := wrap_with_runtime Toy.calculator;
     dump := dump Toy.calculator;
     Interpereter := Interpereter Toy.calculator;
     run := run Toy.calculator;
     prepare_extra_code := prepare_extra_code Toy.calculator;
     run_async := fun o =>
       {| needs := Some 0;
          completes := (o, Raise (BaseOnly "KeyboardInterrupt"));
          cancelled := o |};
     calling_cache_items := calling_cache_items Toy.calculator;
     str_key := fun k => k;
     str_value := str_of_int |}.

(** The world of a session of this calculator that has just started. *)
Definition booted : world calculator :=
  {| stdout := []; tracebacks := [];
     calls := [EvWrap calculator None None; EvInterpereter calculator 0;
               EvRun calculator 0];
     heap := [{| trace := false; machine := [] |}] |}.

End Interrupt.

(** * Properties *)

(** ** The error window *)


Section ErrorPlace.

Lemma str_length_app (a b : string) :
  String.length (a ++ b) = (String.length a + String.length b)%nat.
Proof. induction a as [|c a IH]; simpl; [reflexivity | now rewrite IH]. Qed.

Lemma split_cons (s : string) : exists h t, split nl s = h :: t.
Proof.
  induction s as [|c s [h [t IH]]]; simpl.
  - now exists "", [].
  - destruct (Ascii.eqb c nl).
    + now exists "", (split nl s).
    + rewrite IH. now exists (String c h), t.
Qed.

Lemma getitem_nth {A : Type} (l : list A) (i : nat) (a : A) :
  nth_error l i = Some a -> getitem l (Z.of_nat i) = Ret a.
Proof.
  intros H. unfold getitem.
  destruct (Z.ltb_spec (Z.of_nat i) 0) as [Hn|Hn]; [lia|].
  destruct (Z.ltb_spec (Z.of_nat i) 0); [lia|].
  now rewrite Nat2Z.id, H.
Qed.

Lemma format_template (line position : Z) (prev cur next carat : string) :
  format ERROR_TEMPLATE []
    [ ("line_num", VInt line); ("position", VInt position); ("prev", VStr prev);
      ("cur", VStr cur); ("next", VStr next); ("carat", VStr carat) ]
  = Ret ("On line " ++ str_of_int line ++ " at position " ++ str_of_int position ++ NL ++
         prev ++ NL ++ cur ++ NL ++ carat ++ NL ++ next ++ NL).
Proof. reflexivity. Qed.

Lemma locate_zero (ls : list string) : locate ls 0 = (O, O).
Proof. destruct ls as [|l [|l2 r]]; reflexivity. Qed.

Lemma locate_single (l : string) (n : nat) : locate [l] n = (O, n).
Proof. reflexivity. Qed.

Lemma locate_cons (l l2 : string) (r : list string) (n : nat) :
  locate (l :: l2 :: r) n
  = if (String.length l <? n)%nat
    then (S (fst (locate (l2 :: r) (n - (String.length l + 1)))),
          snd (locate (l2 :: r) (n - (String.length l + 1))))
    else (O, n).
Proof.
  change (locate (l :: l2 :: r) n)
    with (if (String.length l <? n)%nat
          then let '(k, c) := locate (l2 :: r) (n - (String.length l + 1)) in (S k, c)
          else (O, n)).
  now destruct (locate (l2 :: r) (n - (String.length l + 1))).
Qed.

Lemma locate_lt (ls : list string) :
  forall n, ls <> [] -> (fst (locate ls n) < List.length ls)%nat.
Proof.
  induction ls as [|l rest IH]; intros n Hne; [congruence|].
  destruct rest as [|l2 r]; [simpl; lia|].
  rewrite locate_cons.
  destruct (String.length l <? n)%nat; [|simpl; lia].
  specialize (IH (n - (String.length l + 1))%nat ltac:(discriminate)).
  cbn [fst List.length] in *. lia.
Qed.

Lemma seek_line_locate (rest : list string) :
  forall (pre : list string) (fuel n : nat),
    rest <> [] -> (List.length rest <= fuel)%nat ->
    seek_line fuel (pre ++ rest ++ [""]) (len pre) (Z.of_nat n)
    = Ret (len pre + Z.of_nat (fst (locate rest n)), Z.of_nat (snd (locate rest n))).
Proof.
  induction rest as [|l rest IH]; intros pre fuel n Hne Hfuel; [congruence|].
  destruct fuel as [|fuel]; [simpl in Hfuel; lia|].
  assert (Hlen : len (pre ++ (l :: rest) ++ [""]) = len pre + len rest + 2).
  { unfold len. rewrite !length_app. simpl. lia. }
  assert (Hget : getitem (pre ++ (l :: rest) ++ [""]) (len pre) = Ret l).
  { apply getitem_nth. rewrite nth_error_app2 by lia. now rewrite Nat.sub_diag. }
  cbn [seek_line]. rewrite Hlen.
  destruct rest as [|l2 r].
  - replace (len pre <? len pre + len (@nil string) + 2 - 2) with false
      by (symmetry; apply Z.ltb_ge; unfold len; simpl; lia).
    simpl. f_equal. f_equal. lia.
  - replace (len pre <? len pre + len (l2 :: r) + 2 - 2) with true
      by (symmetry; apply Z.ltb_lt; unfold len; simpl; lia).
    rewrite Hget. cbn [obind]. rewrite locate_cons.
    unfold len_str.
    destruct (Nat.ltb_spec (String.length l) n) as [Hlt|Hge].
    + replace (Z.of_nat n >? Z.of_nat (String.length l)) with true
        by (symmetry; apply Z.gtb_lt; lia).
      replace (pre ++ (l :: l2 :: r) ++ [""])%list
        with ((pre ++ [l]) ++ (l2 :: r) ++ [""])%list
        by (rewrite <- app_assoc; reflexivity).
      replace (len pre + 1) with (len (pre ++ [l]))
        by (unfold len; rewrite length_app; simpl; lia).
      replace (Z.of_nat n - (Z.of_nat (String.length l) + 1))
        with (Z.of_nat (n - (String.length l + 1))) by lia.
      rewrite IH by (try discriminate; simpl in *; lia).
      cbn [fst snd]. f_equal. f_equal.
      unfold len. rewrite length_app. simpl. lia.
    + replace (Z.of_nat n >? Z.of_nat (String.length l)) with false
        by (symmetry; rewrite Z.gtb_ltb; apply Z.ltb_ge; lia).
      cbn [fst snd]. f_equal. f_equal. lia.
Qed.


Lemma nth_error_nth_default (l : list string) (k : nat) :
  (k < List.length l)%nat -> nth_error l k = Some (nth k l "").
Proof. intros H. now apply nth_error_nth'. Qed.

Lemma lines_getitem (L : list string) (k : nat) :
  (k < List.length L)%nat ->
  getitem ([""] ++ L ++ [""]) (Z.of_nat k + 1 - 1)
    = Ret (match k with O => "" | S k' => nth k' L "" end)
  /\ getitem ([""] ++ L ++ [""]) (Z.of_nat k + 1) = Ret (nth k L "")
  /\ getitem ([""] ++ L ++ [""]) (Z.of_nat k + 1 + 1) = Ret (nth (S k) L "").
Proof.
  intros Hk. repeat split.
  - replace (Z.of_nat k + 1 - 1) with (Z.of_nat k) by lia.
    apply getitem_nth. destruct k as [|k']; [reflexivity|].
    simpl. rewrite nth_error_app1 by lia. apply nth_error_nth_default. lia.
  - replace (Z.of_nat k + 1) with (Z.of_nat (S k)) by lia.
    apply getitem_nth. simpl. rewrite nth_error_app1 by lia.
    now apply nth_error_nth_default.
  - replace (Z.of_nat k + 1 + 1) with (Z.of_nat (S (S k))) by lia.
    apply getitem_nth. change (nth_error ([""] ++ L ++ [""]) (S (S k)))
      with (nth_error (L ++ [""]) (S k)).
    destruct (Nat.lt_ge_cases (S k) (List.length L)) as [Hlt|Hge].
    + rewrite nth_error_app1 by lia. now apply nth_error_nth_default.
    + rewrite nth_error_app2 by lia.
      replace (S k - List.length L)%nat with O by lia.
      rewrite nth_overflow by lia. reflexivity.
Qed.

Lemma str_times_fits (s : string) (n : Z) :
  fits_index n -> str_times s n = Ret (str_mul s n).
Proof.
  unfold fits_index, str_times. intros [Hlo Hhi].
  destruct (Z.ltb_spec n (- maxsize - 1)); [lia|].
  destruct (Z.ltb_spec maxsize n); [lia|reflexivity].
Qed.

Lemma str_times_overflow (s : string) (n : Z) :
  ~ fits_index n -> str_times s n = Raise OverflowError.
Proof.
  unfold fits_index, str_times. intros Hout.
  destruct (Z.ltb_spec n (- maxsize - 1)); [reflexivity|].
  destruct (Z.ltb_spec maxsize n); [reflexivity|lia].
Qed.

(** The result of [format_error_place] in terms of [locate]: the
    window, once the spaces of the caret line are made. *)
Lemma format_error_place_locate (s : string) (position : Z) :
  0 <= position ->
  let k := fst (locate (split nl s) (Z.to_nat position)) in
  let c := snd (locate (split nl s) (Z.to_nat position)) in
  format_error_place s position
  = obind (str_times " " (Z.of_nat c))
      (fun _ => Ret (window (Z.of_nat k + 1) (Z.of_nat c)
                       (line_before s k) (line_at s k) (line_at s (S k)))).
Proof.
  intros Hpos k c. unfold format_error_place.
  destruct (split_cons s) as [h [t Hs]].
  assert (Hk : (k < List.length (split nl s))%nat)
    by (apply locate_lt; rewrite Hs; discriminate).
  pose proof (seek_line_locate (split nl s) [""]
                (List.length ([""] ++ split nl s ++ [""])) (Z.to_nat position)) as Hseek.
  rewrite Z2Nat.id in Hseek by lia.
  change (len [""]) with 1 in Hseek.
  rewrite Hseek.
  2: { rewrite Hs; discriminate. }
  2: { rewrite !length_app. simpl. lia. }
  cbn [obind]. fold k c.
  destruct (lines_getitem (split nl s) k Hk) as [Hprev [Hcur Hnext]].
  replace (1 + Z.of_nat k) with (Z.of_nat k + 1) by lia.
  rewrite Hprev, Hcur, Hnext. cbn [obind].
  unfold str_times.
  destruct ((Z.of_nat c <? - maxsize - 1) || (maxsize <? Z.of_nat c));
    [reflexivity|].
  cbn [obind]. rewrite format_template. unfold window, line_before, line_at.
  destruct k; reflexivity.
Qed.

(** A negative offset stops the loop at once, on the first line. *)
Lemma format_error_place_negative (s : string) (position : Z) :
  position < 0 ->
  format_error_place s position
  = obind (str_times " " position)
      (fun _ => Ret (window 1 position "" (line_at s 0) (line_at s 1))).
Proof.
  intros Hneg. unfold format_error_place.
  destruct (split_cons s) as [h [t Hs]].
  destruct (lines_getitem (split nl s) 0) as [Hprev [Hcur Hnext]];
    [rewrite Hs; simpl; lia|].
  change (Z.of_nat 0 + 1 - 1) with 0 in Hprev.
  change (Z.of_nat 0 + 1) with 1 in Hcur.
  change (Z.of_nat 0 + 1 + 1) with 2 in Hnext.
  assert (Hseek : seek_line (List.length ([""] ++ split nl s ++ [""]))
                    ([""] ++ split nl s ++ [""]) 1 position = Ret (1, position)).
  { rewrite length_app. cbn [List.length Nat.add seek_line].
    destruct (1 <? len ([""] ++ split nl s ++ [""]) - 2); [|reflexivity].
    rewrite Hcur. cbn [obind].
    replace (position >? len_str (nth 0 (split nl s) "")) with false; [reflexivity|].
    symmetry. rewrite Z.gtb_ltb. apply Z.ltb_ge. unfold len_str. lia. }
  rewrite Hseek. cbn [obind].
  change (1 - 1) with 0. change (1 + 1) with 2.
  rewrite Hprev, Hcur, Hnext. cbn [obind].
  unfold str_times.
  destruct ((position <? - maxsize - 1) || (maxsize <? position)); [reflexivity|].
  cbn [obind]. rewrite format_template. reflexivity.
Qed.

Lemma locate_push (c : ascii) (h : string) (t : list string) (n : nat) :
  locate (String c h :: t) (S n)
  = match fst (locate (h :: t) n) with
    | O => (O, S (snd (locate (h :: t) n)))
    | S _ => locate (h :: t) n
    end.
Proof.
  destruct t as [|l2 r]; [reflexivity|].
  rewrite !locate_cons.
  change (String.length (String c h) <? S n)%nat with (String.length h <? n)%nat.
  change (S n - (String.length (String c h) + 1))%nat
    with (n - (String.length h + 1))%nat.
  destruct (String.length h <? n)%nat; reflexivity.
Qed.

Lemma column_from_shift (s : string) :
  forall n col,
    column_from col s n
    = if (newlines_before s n =? 0)%nat then (col + column_from 0 s n)%nat
      else column_from 0 s n.
Proof.
  induction s as [|c s IH]; intros [|n] col; simpl; try (f_equal; lia).
  destruct (Ascii.eqb c nl); [reflexivity|].
  rewrite (IH n (S col)), (IH n 1%nat).
  destruct (newlines_before s n =? 0)%nat; lia.
Qed.

(** Within the string, the loop stops at the line and column of the
    offset. *)
Lemma locate_offset (s : string) :
  forall n, (n <= String.length s)%nat ->
            locate (split nl s) n = (offset_line s n, offset_column s n).
Proof.
  unfold offset_line, offset_column.
  induction s as [|c s IH]; intros n Hn.
  - simpl in Hn. replace n with O by lia. reflexivity.
  - destruct n as [|n]; [apply locate_zero|].
    simpl in Hn. specialize (IH n ltac:(lia)).
    destruct (split_cons s) as [h [t Hs]].
    cbn [split newlines_before column_from].
    destruct (Ascii.eqb c nl).
    + rewrite Hs, locate_cons, <- Hs.
      change (String.length "" <? S n)%nat with true.
      replace (S n - (String.length "" + 1))%nat with n by (simpl; lia).
      now rewrite IH.
    + rewrite Hs, locate_push, <- Hs, IH. cbn [fst snd].
      rewrite (column_from_shift s n 1).
      destruct (newlines_before s n); reflexivity.
Qed.

(** The column lies on the line, and the character at the offset is
    the character of the line at that column. *)
Lemma locate_column (s : string) :
  forall n, (n <= String.length s)%nat ->
    let k := fst (locate (split nl s) n) in
    let c := snd (locate (split nl s) n) in
    (c <= String.length (nth k (split nl s) ""))%nat
    /\ (forall ch, String.get n s = Some ch -> ch <> nl ->
                   String.get c (nth k (split nl s) "") = Some ch)
    /\ (String.get n s = Some nl -> c = String.length (nth k (split nl s) "")).
Proof.
  induction s as [|ch0 s IH]; intros n Hn.
  - simpl in Hn. replace n with O by lia. simpl. repeat split; try lia; discriminate.
  - destruct (split_cons s) as [h [t Hs]].
    destruct n as [|n].
    + rewrite locate_zero. cbn [fst snd split String.get].
      destruct (Ascii.eqb_spec ch0 nl) as [->|Hne].
      * simpl. repeat split; try lia. intros ch [= <-] Hch. congruence.
      * rewrite Hs. simpl. repeat split; try lia; [auto|congruence].
    + simpl in Hn. specialize (IH n ltac:(lia)).
      cbn [split String.get].
      destruct (Ascii.eqb_spec ch0 nl) as [->|Hne].
      * rewrite Hs, locate_cons, <- Hs.
        change (String.length "" <? S n)%nat with true.
        replace (S n - (String.length "" + 1))%nat with n by (simpl; lia).
        cbn [fst snd nth]. exact IH.
      * rewrite Hs, locate_push. rewrite Hs in IH. cbv zeta in IH.
        destruct (locate (h :: t) n) as [[|j] c] eqn:Hloc; cbn [fst snd nth] in *.
        -- destruct IH as [Hle [Hget Hend]]. repeat split; simpl; try lia; auto.
        -- exact IH.
Qed.


(** [split] cuts at the line feeds and nowhere else. *)
Lemma split_join (s : string) : join NL (split nl s) = s.
Proof.
  unfold join. induction s as [|c s IH]; [reflexivity|].
  destruct (split_cons s) as [h [t Hs]]. cbn [split].
  destruct (Ascii.eqb_spec c nl) as [->|Hne]; rewrite Hs in *.
  - change (String.concat NL ("" :: h :: t))
      with ("" ++ NL ++ String.concat NL (h :: t)).
    now rewrite IH.
  - destruct t as [|l2 r].
    + simpl in *. now rewrite IH.
    + change (String.concat NL (String c h :: l2 :: r))
        with (String c (h ++ NL ++ String.concat NL (l2 :: r))).
      change (String.concat NL (h :: l2 :: r))
        with (h ++ NL ++ String.concat NL (l2 :: r)) in IH.
      now rewrite IH.
Qed.


Lemma substring_all (s : string) : substring 0 (String.length s) s = s.
Proof. induction s as [|c s IH]; simpl; [reflexivity | now rewrite IH]. Qed.

Lemma locate_start (ls : list string) :
  forall n, (line_start ls (fst (locate ls n)) + snd (locate ls n) = n)%nat.
Proof.
  induction ls as [|l rest IH]; intros n; [reflexivity|].
  destruct rest as [|l2 r]; [reflexivity|].
  rewrite locate_cons.
  destruct (Nat.ltb_spec (String.length l) n) as [Hlt|Hge]; [|reflexivity].
  cbn [fst snd].
  change (line_start (l :: l2 :: r)
            (S (fst (locate (l2 :: r) (n - (String.length l + 1))))))
    with (String.length l + 1
          + line_start (l2 :: r) (fst (locate (l2 :: r) (n - (String.length l + 1)))))%nat.
  specialize (IH (n - (String.length l + 1))%nat). lia.
Qed.

Lemma locate_col_le (ls : list string) (n : nat) : (snd (locate ls n) <= n)%nat.
Proof. pose proof (locate_start ls n). lia. Qed.

(** Where the column is an index, the window is returned. *)
Lemma format_error_place_window (s : string) (position : Z) :
  0 <= position <= maxsize ->
  let k := fst (locate (split nl s) (Z.to_nat position)) in
  let c := snd (locate (split nl s) (Z.to_nat position)) in
  format_error_place s position
  = Ret (window (Z.of_nat k + 1) (Z.of_nat c)
           (line_before s k) (line_at s k) (line_at s (S k))).
Proof.
  intros [Hlo Hhi] k c. rewrite format_error_place_locate by assumption.
  fold k c. rewrite str_times_fits; [reflexivity|].
  pose proof (locate_col_le (split nl s) (Z.to_nat position)).
  unfold fits_index, maxsize in *. fold c in H. lia.
Qed.

(** [format_error_place] returns on every string and every offset
    that is an index. *)
Lemma format_error_place_returns (s : string) (position : Z) :
  fits_index position -> exists place, format_error_place s position = Ret place.
Proof.
  intros Hfits. destruct (Z.lt_ge_cases position 0) as [Hneg|Hpos].
  - eexists. rewrite format_error_place_negative by assumption.
    now rewrite str_times_fits.
  - eexists. apply format_error_place_window. unfold fits_index in Hfits. lia.
Qed.

End ErrorPlace.

(** C1. For every string Python can hold and every offset within it
    (the end of the string included), [format_error_place] returns the
    window made of
    the line before the one the offset lies in, that line, a caret
    line with as many spaces as the offset's column, and the line
    after it, headed by the line number counted from 1 and the column.
    The line is the one whose index is the number of line feeds before
    the offset; the column is the distance from the start of that
    line, it lies on the line, and the character under the caret is
    the character at the offset. *)
Theorem format_error_place_within (s : string) (position : Z) :
  is_str s ->
  0 <= position <= len_str s ->
  let n := Z.to_nat position in
  let k := offset_line s n in
  let col := offset_column s n in
  format_error_place s position
  = Ret (window (Z.of_nat k + 1) (Z.of_nat col)
           (line_before s k) (line_at s k) (line_at s (S k)))
  /\ (k < List.length (split nl s))%nat
  /\ (line_start (split nl s) k + col = n)%nat
  /\ (col <= String.length (line_at s k))%nat
  /\ (forall ch, String.get n s = Some ch -> ch <> nl ->
                 String.get col (line_at s k) = Some ch)
  /\ (String.get n s = Some nl -> col = String.length (line_at s k)).
Proof.
  intros Hstr [Hlo Hhi] n k col.
  assert (Hn : (n <= String.length s)%nat) by (unfold len_str in Hhi; lia).
  pose proof (locate_offset s n Hn) as Hloc.
  pose proof (format_error_place_window s position
                ltac:(unfold is_str in Hstr; lia)) as Hfmt.
  pose proof (locate_column s n Hn) as Hcol.
  pose proof (locate_start (split nl s) n) as Hstart.
  destruct (split_cons s) as [h [t Hs]].
  pose proof (locate_lt (split nl s) n ltac:(rewrite Hs; discriminate)) as Hlt.
  fold n in Hfmt. rewrite Hloc in Hfmt, Hcol, Hstart, Hlt.
  cbn [fst snd] in *. fold k col in Hfmt, Hcol, Hstart, Hlt.
  unfold line_at. intuition.
Qed.

Lemma format_error_place_within_witness :
  format_error_place ("ab" ++ NL ++ "cde" ++ NL ++ "f") 4
  = Ret ("On line 2 at position 1" ++ NL ++
         "ab" ++ NL ++ "cde" ++ NL ++ " ^" ++ NL ++ "f" ++ NL).
Proof.
  refine (proj1 (format_error_place_within ("ab" ++ NL ++ "cde" ++ NL ++ "f") 4 _ _)).
  - discriminate.
  - split; discriminate.
Defined.




(** C9. [proc_filename] turns a name that starts with [+] into the
    path of the script of that name, with the suffix [.c5]; it returns
    any other name that is not empty as it is; on the empty name it
    raises [IndexError]. *)
Theorem proc_filename_cases :
  (forall rest : string,
      proc_filename (String "+" rest)
      = Ret ("./calculator/scripts/" ++ rest ++ ".c5"))
  /\ (forall filename : string,
         filename <> "" -> String.get 0 filename <> Some "+"%char ->
         proc_filename filename = Ret filename)
  /\ proc_filename "" = Raise IndexError.
Proof.
  repeat split.
  - intros rest. unfold proc_filename, str_getitem, str_slice_from. simpl.
    rewrite Nat.sub_0_r. now rewrite substring_all.
  - intros [|c f] Hne Hplus; [congruence|].
    unfold proc_filename, str_getitem. simpl in *.
    destruct (Ascii.eqb_spec c "+"%char) as [->|]; [congruence|reflexivity].
Qed.

Lemma proc_filename_cases_witness :
  proc_filename "+fib" = Ret "./calculator/scripts/fib.c5"
  /\ proc_filename "fib.c5" = Ret "fib.c5"
  /\ proc_filename "" = Raise IndexError.
Proof.
  split; [exact (proj1 proc_filename_cases "fib")|].
  split; [|exact (proj2 (proj2 proc_filename_cases))].
  apply (proj1 (proj2 proc_filename_cases) "fib.c5"); discriminate.
Defined.


(** ** The driver *)

Section DriverFacts.

Context (C : Calculator).

Ltac unfold_M :=
  unfold run_source, load_source, main_except, try_except, new_Interpereter,
    run_with_timeout, call_run_async, method, call, print, write, emit,
    alloc, load, store, lift, raise, ret, bind.

Lemma main_is_main_file (h : Host) :
  List.length (argv h) <> 1%nat -> main C h = main_file C h.
Proof.
  intros Hlen. unfold main, len.
  destruct (Z.eqb_spec (Z.of_nat (List.length (argv h))) 1); [lia|reflexivity].
Qed.

(** X16. A source file that does not parse is reported with the
    window at the offset of the fault, and [main] returns: nothing is
    wrapped, created or run. *)
Lemma main_parse_fault_reported (h : Host) (args : Args)
    (filename code : string) (position : Z) :
  List.length (argv h) <> 1%nat ->
  parse_arguments h = Ret args ->
  proc_filename (args_filename args) = Ret filename ->
  read_file h filename = Ret code ->
  parse C code filename = Raise (ParseFailed position) ->
  fits_index position ->
  exists place,
    format_error_place code position = Ret place
    /\ main C h (initial C)
       = ({| stdout := [print_text [place]]; tracebacks := [];
             calls := [EvOpen C filename; EvParse C code filename];
             heap := [] |}, Ret tt).
Proof.
  intros Hlen Hargs Hname Hread Hparse Hfits.
  destruct (format_error_place_returns code position Hfits) as [place Hplace].
  exists place. split; [assumption|].
  rewrite main_is_main_file by assumption.
  unfold main_file. unfold_M. rewrite Hargs, Hname. cbn. rewrite Hread. cbn.
  rewrite Hparse. cbn. rewrite Hplace. reflexivity.
Qed.

(** C2. A source file that does not tokenize: [main] has no clause for
    [TokenizationFailed], the fault leaves [main] and nothing is
    printed. *)
Theorem main_tokenization_fault_escapes (h : Host) (args : Args)
    (filename code : string) (position : Z) :
  List.length (argv h) <> 1%nat ->
  parse_arguments h = Ret args ->
  proc_filename (args_filename args) = Ret filename ->
  read_file h filename = Ret code ->
  parse C code filename = Raise (TokenizationFailed position) ->
  main C h (initial C)
  = ({| stdout := []; tracebacks := [];
        calls := [EvOpen C filename; EvParse C code filename];
        heap := [] |}, Raise (TokenizationFailed position)).
Proof.
  intros Hlen Hargs Hname Hread Hparse.
  rewrite main_is_main_file by assumption.
  unfold main_file. unfold_M. rewrite Hargs, Hname. cbn. rewrite Hread. cbn.
  rewrite Hparse. reflexivity.
Qed.

Ltac split_outcomes :=
  repeat match goal with
         | |- context [match ?x with _ => _ end] =>
             lazymatch x with
             | context [match _ with _ => _ end] => fail
             | _ => destruct x; cbn
             end
         end.

(** C7. When the compile flag is set, [main] creates no interpreter
    and executes nothing; when the file parses and the program is
    wrapped and dumped, [main] prints the dump and returns.  No run of
    [main] on a file both dumps a program and executes one. *)
Theorem compile_only_never_executes :
  (forall (h : Host) (args : Args),
      List.length (argv h) <> 1%nat ->
      parse_arguments h = Ret args ->
      args_compile args = true ->
      heap (fst (main C h (initial C))) = []
      /\ existsb is_execution (calls (fst (main C h (initial C)))) = false
      /\ (forall filename code tokens ast btc text,
             proc_filename (args_filename args) = Ret filename ->
             read_file h filename = Ret code ->
             parse C code filename = Ret (tokens, ast) ->
             wrap_with_runtime C (CodeBuilder C) (Some (Parsed ast)) (Some true)
               = Ret btc ->
             dump C btc = Ret text ->
             main C h (initial C)
             = ({| stdout := [print_text [text]]; tracebacks := [];
                   calls := [EvOpen C filename; EvParse C code filename;
                             EvWrap C (Some (Parsed ast)) (Some true); EvDump C];
                   heap := [] |}, Ret tt)))
  /\ (forall h : Host,
         List.length (argv h) <> 1%nat ->
         existsb is_dump (calls (fst (main C h (initial C))))
         && existsb is_execution (calls (fst (main C h (initial C)))) = false).
Proof.
  split.
  - intros h args Hlen Hargs Hcompile.
    rewrite main_is_main_file by assumption.
    destruct args as [name tracing compiling]. cbn in Hcompile. subst compiling.
    split; [|split].
    + unfold main_file. unfold_M. rewrite Hargs. cbn.
      split_outcomes; reflexivity.
    + unfold main_file. unfold_M. rewrite Hargs. cbn.
      split_outcomes; reflexivity.
    + intros filename code tokens ast btc text Hname Hread Hparse Hwrap Hdump.
      cbn in Hname.
      unfold main_file. unfold_M. rewrite Hargs. cbn. rewrite Hname. cbn.
      rewrite Hread. cbn. rewrite Hparse. cbn. rewrite Hwrap. cbn.
      rewrite Hdump. reflexivity.
  - intros h Hlen. rewrite main_is_main_file by assumption.
    unfold main_file. unfold_M. split_outcomes; reflexivity.
Qed.

(** *** The interactive loop *)

Lemma set_nth_twice {A : Type} (l : list A) :
  forall i a b, set_nth (set_nth l i a) i b = set_nth l i b.
Proof.
  induction l as [|x l IH]; intros [|i] a b; simpl; try reflexivity.
  now rewrite IH.
Qed.

Lemma nth_error_set_nth {A : Type} (l : list A) :
  forall i a x, nth_error l i = Some x -> nth_error (set_nth l i a) i = Some a.
Proof.
  induction l as [|y l IH]; intros [|i] a x H; simpl in *; try discriminate.
  - reflexivity.
  - now apply IH with x.
Qed.

Lemma map_machine_set_nth (l : list (Obj (Machine C))) :
  forall i o o',
    nth_error l i = Some o -> machine o' = machine o ->
    map machine (set_nth l i o') = map machine l.
Proof.
  induction l as [|y l IH]; intros [|i] o o' H Hm; simpl in *; try discriminate.
  - injection H as ->. now rewrite Hm.
  - f_equal. now apply IH with o.
Qed.

Lemma source_line_tests (line : string) :
  is_source_line line = true ->
  String.eqb line "" = false /\ String.eqb line ":tree" = false
  /\ String.eqb line ":parsepoint" = false /\ String.eqb line ":trace" = false
  /\ String.eqb line ":cache" = false.
Proof.
  unfold is_source_line. intros H. apply negb_true_iff in H.
  repeat (apply orb_false_iff in H; destruct H as [H ?]). auto.
Qed.

(** On a source line, an iteration is the [try] statement. *)
Lemma step_source_line (st : locals) (line : string) (w : world C) :
  is_source_line line = true ->
  step C st line w
  = bind C (try_except C (try_body C (count_line st) line) (except_clauses C line))
      (fun _ => ret C (Some (count_line st))) w.
Proof.
  intros H. destruct (source_line_tests line H) as (H1 & H2 & H3 & H4 & H5).
  unfold step. now rewrite H1, H2, H3, H4, H5.
Qed.

Lemma repl_cons (line : string) (rest : list string) (st : locals) (w : world C) :
  repl C (line :: rest) st w
  = match step C st line (prompted w) with
    | (w', Ret (Some st')) => repl C rest st' w'
    | (w', Ret None) => (w', Ret tt)
    | (w', Raise e) => (w', Raise e)
    | (w', Diverge) => (w', Diverge)
    end.
Proof.
  cbn [repl]. unfold bind at 1. unfold write at 1. fold (add_stdout w ["> "]).
  fold (prompted w). unfold bind at 1.
  destruct (step C st line (prompted w)) as [w' [[st'|]| |]]; reflexivity.
Qed.

Lemma add_stdout_app (w : world C) (a b : list string) :
  add_stdout (add_stdout w a) b = add_stdout w (a ++ b).
Proof. unfold add_stdout. cbn. now rewrite <- app_assoc. Qed.

Lemma print_add_stdout (args : list string) (w : world C) :
  print C args w = (add_stdout w [print_text args], Ret tt).
Proof. reflexivity. Qed.

Lemma str_times_len (s t : string) :
  is_str t -> str_times s (len_str t) = Ret (str_mul s (len_str t)).
Proof.
  intros Ht. apply str_times_fits.
  unfold is_str, fits_index, len_str, maxsize in *. lia.
Qed.

(** What the [except] clauses print for a fault of the calculator. *)
Lemma except_clauses_calculator_fault (line : string) (e : exn) (w : world C) :
  is_calculator_fault e = true ->
  well_formed_fault e ->
  exists report,
    except_clauses C line e w = (add_stdout w report, Ret tt)
    /\ match e with
       | ParseFailed position =>
           exists place, format_error_place line position = Ret place
                         /\ report = [print_text ["Parse error"]; print_text [place]]
       | TokenizationFailed position =>
           exists place, format_error_place line position = Ret place
                         /\ report = [print_text ["Tokenization error"];
                                      print_text [place]]
       | EvaluationError message None =>
           report = [print_text ["No debugging information available for this error."];
                     print_text [message];
                     print_text [str_mul "-" (len_str message); NL]]
       | EvaluationError message (Some dbg) =>
           exists place,
             format_error_place (lk_code dbg) (lk_position dbg) = Ret place
             /\ report = [print_text ["Runtime error in"; lk_name dbg];
                          print_text [place];
                          print_text [message];
                          print_text [str_mul "-" (len_str message); NL]]
       | _ => False
       end.
Proof.
  intros He Hwf.
  destruct e as [p|p|message [dbg|]| | | | | | | | |]; try discriminate;
    cbn [well_formed_fault] in Hwf.
  - destruct (format_error_place_returns line p Hwf) as [place Hplace].
    exists [print_text ["Parse error"]; print_text [place]]. split; [|eauto].
    unfold except_clauses, bind, lift. rewrite !print_add_stdout, Hplace.
    rewrite print_add_stdout, add_stdout_app. reflexivity.
  - destruct (format_error_place_returns line p Hwf) as [place Hplace].
    exists [print_text ["Tokenization error"]; print_text [place]]. split; [|eauto].
    unfold except_clauses, bind, lift. rewrite !print_add_stdout, Hplace.
    rewrite print_add_stdout, add_stdout_app. reflexivity.
  - destruct Hwf as [Hmsg Hpos].
    destruct (format_error_place_returns (lk_code dbg) (lk_position dbg) Hpos)
      as [place Hplace].
    eexists. split; [|exists place; split; [exact Hplace|reflexivity]].
    unfold except_clauses, bind, lift. rewrite !print_add_stdout, Hplace.
    rewrite !print_add_stdout, (str_times_len _ _ Hmsg).
    rewrite !print_add_stdout, !add_stdout_app. reflexivity.
  - destruct Hwf as [Hmsg _].
    eexists. split; [|reflexivity].
    unfold except_clauses, bind, lift.
    rewrite !print_add_stdout, (str_times_len _ _ Hmsg).
    rewrite !print_add_stdout, !add_stdout_app. reflexivity.
Qed.

(** C3. An evaluation fault caught by the loop is reported with the
    line that says no debugging information is available when it has
    no linking record, and with the name of the fragment and the
    window at the recorded offset of the recorded text when it has
    one; the message and a rule of dashes follow in both cases.  The
    message is a string Python can hold and the recorded offset an
    index. *)
Theorem evaluation_fault_report (st : locals) (line : string) (w w1 : world C)
    (message : string) (dbg : option linking) :
  is_source_line line = true ->
  well_formed_fault (EvaluationError message dbg) ->
  try_body C (count_line st) line w = (w1, Raise (EvaluationError message dbg)) ->
  exists report,
    step C st line w = (add_stdout w1 report, Ret (Some (count_line st)))
    /\ match dbg with
       | None =>
           report = [print_text ["No debugging information available for this error."];
                     print_text [message];
                     print_text [str_mul "-" (len_str message); NL]]
       | Some dbg =>
           exists place,
             format_error_place (lk_code dbg) (lk_position dbg) = Ret place
             /\ report = [print_text ["Runtime error in"; lk_name dbg];
                          print_text [place];
                          print_text [message];
                          print_text [str_mul "-" (len_str message); NL]]
       end.
Proof.
  intros Hline Hwf Htry.
  destruct (except_clauses_calculator_fault line (EvaluationError message dbg) w1
              eq_refl Hwf) as [report [Hrun Hreport]].
  exists report. split.
  - rewrite step_source_line by assumption.
    unfold bind, try_except. now rewrite Htry, Hrun.
  - destruct dbg; exact Hreport.
Qed.

(** The last [except] clause takes every other [Exception] and prints
    its traceback. *)
Lemma except_clauses_other (line : string) (e : exn) (w : world C) :
  is_calculator_fault e = false ->
  is_Exception e = true ->
  except_clauses C line e w = print_exc C e w.
Proof. intros Hc He. destruct e; try discriminate; reflexivity. Qed.

(** C4. A source line whose evaluation, parsing or tokenization faults
    is reported and the loop goes on with the next line: what is
    printed is the heading of the fault and the window at its offset
    (or the line that says no debugging information is available),
    the variable [interpereter] still names the same object, the
    objects are as the faulting calls left them, and nothing is called
    in between.  Any other [Exception] has its traceback printed and
    the loop goes on in the same way. *)
Theorem fault_keeps_session (st : locals) (line : string) (rest : list string)
    (w w1 : world C) (e : exn) :
  is_source_line line = true ->
  is_Exception e = true ->
  well_formed_fault e ->
  try_body C (count_line st) line (prompted w) = (w1, Raise e) ->
  exists (w' : world C) (st' : locals),
    step C st line (prompted w) = (w', Ret (Some st'))
    /\ repl C (line :: rest) st w = repl C rest st' w'
    /\ interpereter st' = interpereter st
    /\ heap w' = heap w1
    /\ calls w' = calls w1
    /\ match e with
       | ParseFailed position =>
           tracebacks w' = tracebacks w1
           /\ exists place,
                format_error_place line position = Ret place
                /\ stdout w'
                   = (stdout w1 ++ [print_text ["Parse error"];
                                    print_text [place]])%list
       | TokenizationFailed position =>
           tracebacks w' = tracebacks w1
           /\ exists place,
                format_error_place line position = Ret place
                /\ stdout w'
                   = (stdout w1 ++ [print_text ["Tokenization error"];
                                    print_text [place]])%list
       | EvaluationError message None =>
           tracebacks w' = tracebacks w1
           /\ stdout w'
              = (stdout w1
                 ++ [print_text ["No debugging information available for this error."];
                     print_text [message];
                     print_text [str_mul "-" (len_str message); NL]])%list
       | EvaluationError message (Some dbg) =>
           tracebacks w' = tracebacks w1
           /\ exists place,
                format_error_place (lk_code dbg) (lk_position dbg) = Ret place
                /\ stdout w'
                   = (stdout w1
                      ++ [print_text ["Runtime error in"; lk_name dbg];
                          print_text [place];
                          print_text [message];
                          print_text [str_mul "-" (len_str message); NL]])%list
       | _ =>
           stdout w' = stdout w1
           /\ tracebacks w' = (tracebacks w1 ++ [e])%list
       end.
Proof.
  intros Hline Hexn Hwf Htry.
  assert (Hstep : forall w', except_clauses C line e w1 = (w', Ret tt) ->
            step C st line (prompted w) = (w', Ret (Some (count_line st)))).
  { intros w' Hrun. rewrite step_source_line by assumption.
    unfold bind, try_except. now rewrite Htry, Hrun. }
  destruct (is_calculator_fault e) eqn:Hfault.
  - destruct (except_clauses_calculator_fault line e w1 Hfault Hwf)
      as [report [Hrun Hreport]].
    exists (add_stdout w1 report), (count_line st).
    rewrite repl_cons, (Hstep _ Hrun).
    do 5 (split; [reflexivity|]).
    destruct e as [p|p|message [dbg|]| | | | | | | | |]; try discriminate.
    + destruct Hreport as [place [Hplace ->]]. split; [reflexivity|eauto].
    + destruct Hreport as [place [Hplace ->]]. split; [reflexivity|eauto].
    + destruct Hreport as [place [Hplace ->]]. split; [reflexivity|eauto].
    + rewrite Hreport. split; reflexivity.
  - pose proof (except_clauses_other line e w1 Hfault Hexn) as Hrun.
    unfold print_exc in Hrun.
    rewrite repl_cons, (Hstep _ Hrun).
    eexists _, (count_line st).
    do 5 (split; [reflexivity|]).
    destruct e; try discriminate; split; reflexivity.
Qed.

(** The flag [show_parsepoint] has no effect on an iteration, except
    on the flag itself. *)
Lemma step_show_parsepoint (b : bool) (st : locals) (line : string) (w : world C) :
  exists b',
    step C (with_show_parsepoint b st) line w
    = (fst (step C st line w),
       match snd (step C st line w) with
       | Ret (Some st') => Ret (Some (with_show_parsepoint b' st'))
       | r => r
       end).
Proof.
  unfold step.
  destruct (String.eqb line ""); [exists b; reflexivity|].
  destruct (String.eqb line ":tree"); [exists b; reflexivity|].
  destruct (String.eqb line ":parsepoint"); [exists (negb b); reflexivity|].
  destruct (String.eqb line ":trace").
  { exists b. unfold bind, load, store, ret. cbn.
    destruct (nth_error (heap w) (interpereter st)); reflexivity. }
  destruct (String.eqb line ":cache").
  { exists b. unfold bind, load, ret. cbn.
    destruct (nth_error (heap w) (interpereter st)); [|reflexivity].
    destruct (print_cache C _ w) as [w' [[]| |]]; reflexivity. }
  exists b. unfold bind.
  change (try_body C (count_line (with_show_parsepoint b st)) line)
    with (try_body C (count_line st) line).
  destruct (try_except C _ _ w) as [w' [[]| |]]; reflexivity.
Qed.

(** C5. The [:parsepoint] command flips a flag that nothing reads: a
    session runs the same whatever the flag is, so that the command
    only uses up a line number, and the token display is never
    printed. *)
Theorem show_parsepoint_never_read :
  (forall (lines : list string) (b : bool) (st : locals) (w : world C),
      repl C lines (with_show_parsepoint b st) w = repl C lines st w)
  /\ (forall (rest : list string) (st : locals) (w : world C),
         repl C (":parsepoint" :: rest) st w
         = repl C rest (count_line st) (prompted w)).
Proof.
  assert (Hflag : forall lines b st w,
             repl C lines (with_show_parsepoint b st) w = repl C lines st w).
  { induction lines as [|line rest IH]; intros b st w; [reflexivity|].
    rewrite !repl_cons.
    destruct (step_show_parsepoint b st line (prompted w)) as [b' Hstep].
    rewrite Hstep.
    destruct (step C st line (prompted w)) as [w' [[st'|]| |]]; cbn [fst snd];
      try reflexivity.
    apply IH. }
  split; [exact Hflag|].
  intros rest st w. rewrite repl_cons.
  change (step C st ":parsepoint" (prompted w))
    with (prompted w,
          Ret (Some (with_show_parsepoint (negb (show_parsepoint st)) (count_line st)))).
  apply Hflag.
Qed.



Lemma try_body_prepared (st : locals) (line : string) (w : world C)
    (o o1 : Obj (Machine C)) (tokens : Tokens C) (ast : Ast C) (text : string) :
  nth_error (heap w) (interpereter st) = Some o ->
  parse C line ("iterm_" ++ str_of_int (line_count st)) = Ret (tokens, ast) ->
  json_dumps C (Parsed ast) = Ret text ->
  prepare_extra_code C (prepared ast) o = (o1, Ret tt) ->
  try_body C st line w
  = bind C (run_with_timeout C {| target := interpereter st; body := run_async C o1 |}
              (Some 5))
      (fun result => match result with
                     | Some v => print C [str_value C v]
                     | None => ret C tt
                     end)
      {| stdout := stdout w ++ (if show_tree st then [print_text [text]] else []);
         tracebacks := tracebacks w;
         calls := calls w
                  ++ [EvParse C line ("iterm_" ++ str_of_int (line_count st))]
                  ++ (if show_tree st then [EvJsonDumps C] else [])
                  ++ [EvPrepare C (interpereter st) (prepared ast);
                      EvRunAsync C (interpereter st)];
         heap := set_nth (heap w) (interpereter st) o1 |}.
Proof.
  intros Hobj Hparse Hjson Hprep.
  unfold prepared in *. unfold try_body.
  destruct (show_tree st); unfold_M; rewrite Hparse; cbn;
    rewrite ?Hjson; cbn; rewrite Hobj; cbn; rewrite Hprep; cbn;
    rewrite (nth_error_set_nth _ _ _ _ Hobj); cbn;
    rewrite <- ?app_assoc, ?app_nil_r; cbn; reflexivity.
Qed.
(** C6. A source line is parsed, the tree is handed to
    [prepare_extra_code], and [run_async] is driven by
    [run_with_timeout] under a deadline of 5 seconds, in this order.
    When the run completes in time with a value other than [None], the
    value is printed; when the deadline expires the task is cancelled,
    and the [TimeoutError] this raises is caught by the loop. *)
Theorem source_line_path (st : locals) (line : string) (w : world C)
    (o o1 : Obj (Machine C)) (tokens : Tokens C) (ast : Ast C) (text : string) :
  is_source_line line = true ->
  nth_error (heap w) (interpereter st) = Some o ->
  parse C line ("iterm_" ++ str_of_int (line_count st + 1)) = Ret (tokens, ast) ->
  json_dumps C (Parsed ast) = Ret text ->
  prepare_extra_code C (prepared ast) o = (o1, Ret tt) ->
  let oid := interpereter st in
  let task := run_async C o1 in
  let path :=
    ([EvParse C line ("iterm_" ++ str_of_int (line_count st + 1))]
     ++ (if show_tree st then [EvJsonDumps C] else [])
     ++ [EvPrepare C oid (prepared ast); EvRunAsync C oid;
         EvWaitFor C oid (Some 5)])%list in
  let shown := if show_tree st then [print_text [text]] else [] in
  (forall (d : Z) (o2 : Obj (Machine C)) (result : option (Value C)),
      needs task = Some d -> d <= 5 -> completes task = (o2, Ret result) ->
      step C st line w
      = ({| stdout := stdout w ++ shown
                      ++ match result with
                         | Some v => [print_text [str_value C v]]
                         | None => []
                         end;
            tracebacks := tracebacks w;
            calls := calls w ++ path;
            heap := set_nth (heap w) oid o2 |},
         Ret (Some (count_line st))))
  /\ (needs task = None \/ (exists d : Z, needs task = Some d /\ 5 < d) ->
      step C st line w
      = ({| stdout := stdout w ++ shown;
            tracebacks := tracebacks w ++ [TimeoutError];
            calls := calls w ++ path ++ [EvCancel C oid];
            heap := set_nth (heap w) oid (cancelled task) |},
         Ret (Some (count_line st)))).
Proof.
  intros Hline Hobj Hparse Hjson Hprep oid task path shown.
  assert (Hbody := try_body_prepared (count_line st) line w o o1 tokens ast text
                     Hobj Hparse Hjson Hprep).
  change (interpereter (count_line st)) with oid in Hbody.
  change (show_tree (count_line st)) with (show_tree st) in Hbody.
  change (line_count (count_line st)) with (line_count st + 1) in Hbody.
  fold task in Hbody.
  split.
  - intros d o2 result Hneeds Hd Hdone.
    rewrite step_source_line by assumption.
    unfold bind at 1. unfold try_except. rewrite Hbody.
    unfold bind, run_with_timeout, wait_for. cbn [target body].
    rewrite Hneeds.
    destruct (Z.leb_spec d 5) as [_|Hgt]; [|lia].
    rewrite Hdone. unfold_M. cbn. rewrite set_nth_twice.
    unfold path, shown.
    destruct result, (show_tree st); cbn;
      rewrite <- ?app_assoc, ?app_nil_r; reflexivity.
  - intros Hlate.
    rewrite step_source_line by assumption.
    unfold bind at 1. unfold try_except. rewrite Hbody.
    unfold bind, run_with_timeout, wait_for. cbn [target body].
    assert (Hwait : match needs task with
                    | Some d => if d <=? 5
                                then Completed (fst (completes task))
                                       (snd (completes task))
                                else TimedOut (cancelled task)
                    | None => TimedOut (cancelled task)
                    end = TimedOut (cancelled task)).
    { destruct Hlate as [->|[d [-> Hd]]]; [reflexivity|].
      destruct (Z.leb_spec d 5); [lia|reflexivity]. }
    rewrite Hwait. unfold_M. cbn. rewrite set_nth_twice.
    unfold path, shown.
    destruct (show_tree st); cbn; rewrite <- ?app_assoc, ?app_nil_r; reflexivity.
Qed.


Lemma str_app_nil_r (s : string) : s ++ "" = s.
Proof. induction s as [|c s IH]; simpl; [reflexivity | now rewrite IH]. Qed.

Lemma format_cache_row (k v : string) :
  format "{:40} : {:20}" [VStr k; VStr v] []
  = Ret (pad 40 (VStr k) ++ " : " ++ pad 20 (VStr v)).
Proof.
  rewrite <- (str_app_nil_r (pad 20 (VStr v))) at 1. reflexivity.
Qed.

Lemma print_cache_rows (items : list (Key C * Value C)) :
  forall w : world C,
    print_cache C items w = (add_stdout w (map cache_row items), Ret tt).
Proof.
  induction items as [|[k v] items IH]; intros w.
  - unfold add_stdout. cbn. rewrite app_nil_r. now destruct w.
  - cbn [print_cache map]. unfold bind, lift. rewrite format_cache_row.
    rewrite print_add_stdout, IH, add_stdout_app. reflexivity.
Qed.

(** C10. The empty line ends the session.  The four commands are not
    handed to the parser and execute nothing: no call is made, and
    the objects keep their state but for the [trace] attribute, which
    [:trace] flips; [:tree] and [:parsepoint] flip their flags and
    [:cache] prints the entries of the calling cache. *)
Theorem commands_are_control_only (st : locals) (w : world C) :
  step C st "" w = (w, Ret None)
  /\ (forall rest : list string, repl C ("" :: rest) st w = (prompted w, Ret tt))
  /\ (forall line : string,
         In line [":tree"; ":parsepoint"; ":trace"; ":cache"] ->
         calls (fst (step C st line w)) = calls w
         /\ map machine (heap (fst (step C st line w))) = map machine (heap w))
  /\ step C st ":tree" w
     = (w, Ret (Some {| show_tree := negb (show_tree st);
                        show_parsepoint := show_parsepoint st;
                        interpereter := interpereter st;
                        line_count := line_count st + 1 |}))
  /\ step C st ":parsepoint" w
     = (w, Ret (Some {| show_tree := show_tree st;
                        show_parsepoint := negb (show_parsepoint st);
                        interpereter := interpereter st;
                        line_count := line_count st + 1 |}))
  /\ (forall o : Obj (Machine C),
         nth_error (heap w) (interpereter st) = Some o ->
         step C st ":trace" w
         = ({| stdout := stdout w; tracebacks := tracebacks w; calls := calls w;
               heap := set_nth (heap w) (interpereter st)
                         {| trace := negb (trace o); machine := machine o |} |},
            Ret (Some (count_line st)))
         /\ step C st ":cache" w
            = (add_stdout w (map cache_row (calling_cache_items C o)),
               Ret (Some (count_line st)))).
Proof.
  assert (Htrace : forall o, nth_error (heap w) (interpereter st) = Some o ->
            step C st ":trace" w
            = ({| stdout := stdout w; tracebacks := tracebacks w; calls := calls w;
                  heap := set_nth (heap w) (interpereter st)
                            {| trace := negb (trace o); machine := machine o |} |},
               Ret (Some (count_line st)))).
  { intros o Hobj. unfold step. cbn. unfold bind, load, store, ret. cbn.
    now rewrite Hobj. }
  assert (Hcache : forall o, nth_error (heap w) (interpereter st) = Some o ->
            step C st ":cache" w
            = (add_stdout w (map cache_row (calling_cache_items C o)),
               Ret (Some (count_line st)))).
  { intros o Hobj. unfold step. cbn. unfold bind, load, ret. cbn.
    now rewrite Hobj, print_cache_rows. }
  split; [reflexivity|].
  split; [intros rest; rewrite repl_cons; reflexivity|].
  split; [|split; [reflexivity|split; [reflexivity|]]].
  - intros line [<-|[<-|[<-|[<-|[]]]]]; try (split; reflexivity).
    + destruct (nth_error (heap w) (interpereter st)) as [o|] eqn:Hobj.
      * rewrite (Htrace o eq_refl). cbn. split; [reflexivity|].
        now apply map_machine_set_nth with o.
      * unfold step. cbn. unfold bind, load. cbn. now rewrite Hobj.
    + destruct (nth_error (heap w) (interpereter st)) as [o|] eqn:Hobj.
      * rewrite (Hcache o eq_refl). split; reflexivity.
      * unfold step. cbn. unfold bind, load. cbn. now rewrite Hobj.
  - intros o Hobj. split; auto.
Qed.

End DriverFacts.

(** ** The small calculator at work *)

(** A session of the small calculator starts in [Toy.booted]. *)
Lemma toy_session_starts (lines : list string) :
  interactive_terminal Toy.calculator lines (initial Toy.calculator)
  = repl Toy.calculator lines Toy.started Toy.booted.
Proof. reflexivity. Qed.

(** After [:parsepoint], a source line prints its value and nothing
    else. *)
Example toy_parsepoint_session :
  stdout (fst (interactive_terminal Toy.calculator [":parsepoint"; "1+1"; ""]
                 (initial Toy.calculator)))
  = ["> "; "> "; print_text ["3"]; "> "].
Proof. reflexivity. Qed.

(** A file that does not parse is reported with the window at the
    fault. *)
Example toy_parse_fault_file :
  main Toy.calculator (Toy.host ")" false false) (initial Toy.calculator)
  = ({| stdout := [print_text [window 1 0 "" ")" ""]]; tracebacks := [];
        calls := [EvOpen Toy.calculator "prog"; EvParse Toy.calculator ")" "prog"];
        heap := [] |}, Ret tt).
Proof. reflexivity. Qed.

Lemma main_tokenization_fault_escapes_witness :
  main Toy.calculator (Toy.host "$" false false) (initial Toy.calculator)
  = ({| stdout := []; tracebacks := [];
        calls := [EvOpen Toy.calculator "prog"; EvParse Toy.calculator "$" "prog"];
        heap := [] |}, Raise (TokenizationFailed 0)).
Proof.
  apply (main_tokenization_fault_escapes Toy.calculator (Toy.host "$" false false)
           {| args_filename := "prog"; args_trace := false; args_compile := false |});
    solve [reflexivity | discriminate].
Defined.

Lemma compile_only_never_executes_witness :
  main Toy.calculator (Toy.host "1+1" false true) (initial Toy.calculator)
  = ({| stdout := [print_text ["1+1"]]; tracebacks := [];
        calls := [EvOpen Toy.calculator "prog"; EvParse Toy.calculator "1+1" "prog";
                  EvWrap Toy.calculator (Some (Parsed "1+1")) (Some true);
                  EvDump Toy.calculator];
        heap := [] |}, Ret tt).
Proof.
  refine (proj2 (proj2 (proj1 (compile_only_never_executes Toy.calculator)
                          (Toy.host "1+1" false true)
                          {| args_filename := "prog"; args_trace := false;
                             args_compile := true |} _ _ _))
            "prog" "1+1" ["1+1"] "1+1" ["1+1"] "1+1" _ _ _ _ _);
    solve [reflexivity | discriminate].
Defined.

Lemma evaluation_fault_report_witness :
  step Toy.calculator Toy.started "boom" Toy.booted
  = ({| stdout := [print_text ["No debugging information available for this error."];
                   print_text ["boom"]; print_text ["----"; NL]];
        tracebacks := [];
        calls := [EvWrap Toy.calculator None None; EvInterpereter Toy.calculator 0;
                  EvRun Toy.calculator 0;
                  EvParse Toy.calculator "boom" "iterm_1";
                  EvPrepare Toy.calculator 0 (prepared "boom");
                  EvRunAsync Toy.calculator 0;
                  EvWaitFor Toy.calculator 0 (Some 5)];
        heap := [{| trace := false; machine := ["boom"] |}] |},
     Ret (Some (count_line Toy.started))).
Proof.
  assert (Hwf : well_formed_fault (EvaluationError "boom" None))
    by (split; [discriminate|exact I]).
  destruct (evaluation_fault_report Toy.calculator Toy.started "boom" Toy.booted
              {| stdout := []; tracebacks := [];
                 calls := [EvWrap Toy.calculator None None;
                           EvInterpereter Toy.calculator 0;
                           EvRun Toy.calculator 0;
                           EvParse Toy.calculator "boom" "iterm_1";
                           EvPrepare Toy.calculator 0 (prepared "boom");
                           EvRunAsync Toy.calculator 0;
                           EvWaitFor Toy.calculator 0 (Some 5)];
                 heap := [{| trace := false; machine := ["boom"] |}] |}
              "boom" None eq_refl Hwf eq_refl) as [report [Hstep Hreport]].
  rewrite Hstep, Hreport. reflexivity.
Defined.

Lemma fault_keeps_session_witness :
  exists (w' : world Toy.calculator) (st' : locals),
    repl Toy.calculator ["$"; "1+1"] Toy.started Toy.booted
    = repl Toy.calculator ["1+1"] st' w'
    /\ interpereter st' = interpereter Toy.started
    /\ heap w' = heap Toy.booted
    /\ stdout w' = ["> "; print_text ["Tokenization error"];
                    print_text [window 1 0 "" "$" ""]].
Proof.
  assert (Hwf : well_formed_fault (TokenizationFailed 0)) by (split; discriminate).
  destruct (fault_keeps_session Toy.calculator Toy.started "$" ["1+1"] Toy.booted
              {| stdout := ["> "]; tracebacks := [];
                 calls := [EvWrap Toy.calculator None None;
                           EvInterpereter Toy.calculator 0;
                           EvRun Toy.calculator 0;
                           EvParse Toy.calculator "$" "iterm_1"];
                 heap := [{| trace := false; machine := [] |}] |}
              (TokenizationFailed 0) eq_refl eq_refl Hwf eq_refl)
    as (w' & st' & _ & Hrepl & Hsame & Hheap & _ & _ & place & Hplace & Hout).
  exists w', st'. repeat split; try assumption.
  rewrite Hout. injection Hplace as <-. reflexivity.
Defined.

Lemma source_line_path_witness :
  step Toy.calculator Toy.started "1+1" Toy.booted
  = ({| stdout := [print_text ["3"]]; tracebacks := [];
        calls := [EvWrap Toy.calculator None None; EvInterpereter Toy.calculator 0;
                  EvRun Toy.calculator 0;
                  EvParse Toy.calculator "1+1" "iterm_1";
                  EvPrepare Toy.calculator 0 (prepared "1+1");
                  EvRunAsync Toy.calculator 0;
                  EvWaitFor Toy.calculator 0 (Some 5)];
        heap := [{| trace := false; machine := ["1+1"] |}] |},
     Ret (Some (count_line Toy.started)))
  /\ step Toy.calculator Toy.started "loop" Toy.booted
     = ({| stdout := []; tracebacks := [TimeoutError];
           calls := [EvWrap Toy.calculator None None; EvInterpereter Toy.calculator 0;
                     EvRun Toy.calculator 0;
                     EvParse Toy.calculator "loop" "iterm_1";
                     EvPrepare Toy.calculator 0 (prepared "loop");
                     EvRunAsync Toy.calculator 0;
                     EvWaitFor Toy.calculator 0 (Some 5);
                     EvCancel Toy.calculator 0];
           heap := [{| trace := false; machine := ["loop"] |}] |},
        Ret (Some (count_line Toy.started))).
Proof.
  split.
  - exact (proj1 (source_line_path Toy.calculator Toy.started "1+1" Toy.booted
                    {| trace := false; machine := [] |}
                    {| trace := false; machine := ["1+1"] |}
                    ["1+1"] "1+1" "{1+1}" eq_refl eq_refl eq_refl eq_refl eq_refl)
             0 {| trace := false; machine := ["1+1"] |} (Some 3)
             eq_refl ltac:(discriminate) eq_refl).
  - exact (proj2 (source_line_path Toy.calculator Toy.started "loop" Toy.booted
                    {| trace := false; machine := [] |}
                    {| trace := false; machine := ["loop"] |}
                    ["loop"] "loop" "{loop}" eq_refl eq_refl eq_refl eq_refl eq_refl)
             (or_introl eq_refl)).
Defined.


Lemma commands_are_control_only_witness :
  calls (fst (step Toy.calculator Toy.started ":trace" Toy.booted)) = calls Toy.booted
  /\ map machine (heap (fst (step Toy.calculator Toy.started ":trace" Toy.booted)))
     = map machine (heap Toy.booted).
Proof.
  apply (proj1 (proj2 (proj2 (commands_are_control_only Toy.calculator
                                Toy.started Toy.booted))) ":trace").
  right. right. left. reflexivity.
Defined.

(** * Further properties *)

(** ** Further properties of the error window *)

Section WindowFacts.










End WindowFacts.



(** X2. A negative offset never moves off the first line: when it is
    an index, the heading shows line 1 and the negative position, and
    the caret stands in the first column; below the least index,
    [OverflowError] is raised. *)
Theorem format_error_place_before_start (s : string) (position : Z) :
  position < 0 ->
  format_error_place s position
  = if position <? - maxsize - 1 then Raise OverflowError
    else Ret ("On line 1 at position " ++ str_of_int position ++ NL ++
              "" ++ NL ++ line_at s 0 ++ NL ++ "^" ++ NL ++ line_at s 1 ++ NL).
Proof.
  intros Hneg. rewrite format_error_place_negative by assumption.
  destruct (Z.ltb_spec position (- maxsize - 1)) as [Hout|Hfit].
  - rewrite str_times_overflow; [reflexivity|]. unfold fits_index. lia.
  - rewrite str_times_fits by (unfold fits_index, maxsize in *; lia).
    unfold window, str_mul. destruct position as [|p|p]; try lia. reflexivity.
Qed.

Lemma format_error_place_before_start_witness :
  format_error_place ("ab" ++ NL ++ "cd") (-3)
  = Ret ("On line 1 at position -3" ++ NL ++
         "" ++ NL ++ "ab" ++ NL ++ "^" ++ NL ++ "cd" ++ NL).
Proof.
  exact (format_error_place_before_start ("ab" ++ NL ++ "cd") (-3) eq_refl).
Defined.



(** X4. The line and the column the loop of [format_error_place] stops
    at give the offset back: the offset is the start of that line plus
    the column, and the line is one of the lines of the text. *)
Theorem seek_line_recovers_offset (s : string) (position : Z) :
  let lines := ([""] ++ split nl s ++ [""])%list in
  exists line col : Z,
    seek_line (List.length lines) lines 1 position = Ret (line, col)
    /\ 1 <= line <= len (split nl s)
    /\ position
       = Z.of_nat (line_start (split nl s) (Z.to_nat (line - 1))) + col.
Proof.
  intros lines. destruct (split_cons s) as [h [t Hs]].
  destruct (Z.lt_ge_cases position 0) as [Hneg|Hpos].
  - exists 1, position. split; [|split].
    + unfold lines. rewrite length_app. cbn [List.length Nat.add seek_line].
      destruct (1 <? len ([""] ++ split nl s ++ [""]) - 2); [|reflexivity].
      destruct (lines_getitem (split nl s) 0) as [_ [Hcur _]];
        [rewrite Hs; simpl; lia|].
      change (Z.of_nat 0 + 1) with 1 in Hcur. rewrite Hcur. cbn [obind].
      replace (position >? len_str (nth 0 (split nl s) "")) with false;
        [reflexivity|].
      symmetry. rewrite Z.gtb_ltb. apply Z.ltb_ge. unfold len_str. lia.
    + unfold len. rewrite Hs. simpl. lia.
    + destruct (split nl s); reflexivity.
  - pose proof (seek_line_locate (split nl s) [""] (List.length lines)
                  (Z.to_nat position)) as Hseek.
    rewrite Z2Nat.id in Hseek by lia. change (len [""]) with 1 in Hseek.
    eexists _, _. split; [|split].
    + apply Hseek; [rewrite Hs; discriminate|].
      unfold lines. rewrite !length_app. simpl. lia.
    + pose proof (locate_lt (split nl s) (Z.to_nat position)
                    ltac:(rewrite Hs; discriminate)).
      unfold len. lia.
    + pose proof (locate_start (split nl s) (Z.to_nat position)) as Hstart.
      replace (Z.to_nat (1 + Z.of_nat (fst (locate (split nl s) (Z.to_nat position))) - 1))
        with (fst (locate (split nl s) (Z.to_nat position))) by lia.
      lia.
Qed.

(** X5. [proc_filename] is idempotent: the path it returns is returned
    unchanged when it is given back. *)
Theorem proc_filename_idempotent (filename path : string) :
  proc_filename filename = Ret path -> proc_filename path = Ret path.
Proof.
  destruct filename as [|c rest]; [discriminate|].
  unfold proc_filename, str_getitem. cbn.
  destruct (Ascii.eqb_spec c "+"%char) as [->|Hne]; intros [= <-].
  - reflexivity.
  - cbn. destruct (Ascii.eqb_spec c "+"%char); [contradiction|reflexivity].
Qed.

Lemma proc_filename_idempotent_witness :
  proc_filename "./calculator/scripts/fib.c5" = Ret "./calculator/scripts/fib.c5".
Proof. exact (proc_filename_idempotent "+fib" _ eq_refl). Defined.

(** ** Further properties of the driver *)

Section DriverMore.

Context (C : Calculator).

(** *** The token display *)

Lemma sum_from (l : list Z) : forall a, fold_left Z.add l a = a + fold_left Z.add l 0.
Proof.
  induction l as [|x l IH]; intros a; simpl; [lia|].
  rewrite (IH (a + x)), (IH x). lia.
Qed.

Lemma sum_lengths (tokens : list string) :
  sum (map len_str tokens) + Z.of_nat (List.length tokens)
  = Z.of_nat (tokens_width tokens).
Proof.
  unfold sum. induction tokens as [|t rest IH]; [reflexivity|].
  cbn [map fold_left List.length tokens_width]. rewrite sum_from.
  unfold len_str in *. lia.
Qed.

Lemma substring_prefix (a b : string) : substring 0 (String.length a) (a ++ b) = a.
Proof.
  induction a as [|c a IH]; simpl; [now destruct b|now rewrite IH].
Qed.

Lemma substring_skip (a b : string) (m n : nat) :
  substring (String.length a + m) n (a ++ b) = substring m n b.
Proof. induction a as [|c a IH]; simpl; [reflexivity|exact IH]. Qed.

Lemma str_app_assoc (a b c : string) : (a ++ b) ++ c = a ++ b ++ c.
Proof. induction a as [|x a IH]; simpl; [reflexivity|now rewrite IH]. Qed.

Lemma join_cons (t t2 : string) (rest : list string) :
  join " " (t :: t2 :: rest) = t ++ " " ++ join " " (t2 :: rest).
Proof. reflexivity. Qed.

Lemma token_at_column (tokens : list string) :
  forall r, (r < List.length tokens)%nat ->
    substring (tokens_width (firstn r tokens)) (String.length (nth r tokens ""))
      (join " " tokens)
    = nth r tokens "".
Proof.
  induction tokens as [|t rest IH]; intros r Hr; [simpl in Hr; lia|].
  destruct r as [|r].
  - cbn [firstn tokens_width nth]. destruct rest as [|t2 rest].
    + apply substring_all.
    + rewrite join_cons. apply substring_prefix.
  - simpl in Hr. destruct rest as [|t2 rest]; [simpl in Hr; lia|].
    rewrite join_cons. cbn [firstn tokens_width nth].
    replace (String.length t + 1 + tokens_width (firstn r (t2 :: rest)))%nat
      with (String.length (t ++ " ") + tokens_width (firstn r (t2 :: rest)))%nat
      by (rewrite str_length_app; reflexivity).
    replace (t ++ " " ++ join " " (t2 :: rest))
      with ((t ++ " ") ++ join " " (t2 :: rest)).
    + rewrite substring_skip. apply IH. simpl in *. lia.
    + apply str_app_assoc.
Qed.

Lemma tokens_width_join (tokens : list string) :
  tokens <> [] ->
  tokens_width tokens = (String.length (join " " tokens) + 1)%nat.
Proof.
  induction tokens as [|t rest IH]; intros Hne; [congruence|].
  destruct rest as [|t2 rest]; [simpl; lia|].
  rewrite join_cons, !str_length_app.
  change (tokens_width (t :: t2 :: rest))
    with (String.length t + 1 + tokens_width (t2 :: rest))%nat.
  rewrite IH by discriminate. simpl. lia.
Qed.

Lemma tokens_width_firstn (tokens : list string) :
  forall r, (r < List.length tokens)%nat ->
    (tokens_width (firstn r tokens) + String.length (nth r tokens "") + 1
     <= tokens_width tokens)%nat.
Proof.
  induction tokens as [|t rest IH]; intros r Hr; [simpl in Hr; lia|].
  destruct r as [|r]; [simpl; lia|].
  simpl in Hr. specialize (IH r ltac:(lia)).
  cbn [firstn nth tokens_width]. lia.
Qed.

(** X6. [print_token_parse_caret] prints the tokens joined by spaces
    and, on the next line, a caret that stands under the first
    character of the token at the rightmost parse point: the text of
    that token is what the joined line holds from the caret's column
    on.  The joined line is a string Python can hold. *)
Theorem print_token_parse_caret_aligned (tokens : list string) (rightmost : Z)
    (w : world C) :
  is_str (join " " tokens) ->
  0 <= rightmost < len tokens ->
  let r := Z.to_nat rightmost in
  let col := tokens_width (firstn r tokens) in
  print_token_parse_caret C {| to_tokens := tokens; to_rightmost := rightmost |} w
  = (add_stdout w [print_text [join " " tokens];
                   print_text [repeat_str " " col ++ "^"]], Ret tt)
  /\ substring col (String.length (nth r tokens "")) (join " " tokens)
     = nth r tokens "".
Proof.
  intros Hstr [Hlo Hhi] r col. unfold len in Hhi.
  assert (Hr : (r < List.length tokens)%nat) by (unfold r; lia).
  split; [|now apply token_at_column].
  pose proof (sum_lengths (firstn r tokens)) as Hsum.
  rewrite firstn_length_le in Hsum by lia.
  replace (Z.of_nat r) with rightmost in Hsum by (unfold r; lia).
  assert (Hcol : fits_index (Z.of_nat col)).
  { pose proof (tokens_width_firstn tokens r Hr) as Hle.
    assert (Hne : tokens <> []) by (intros ->; simpl in Hr; lia).
    rewrite (tokens_width_join tokens Hne) in Hle.
    unfold is_str, len_str, fits_index, maxsize in *. fold col in Hle. lia. }
  unfold print_token_parse_caret, bind, lift.
  cbn [to_tokens to_rightmost]. unfold slice_to.
  destruct (Z.ltb_spec rightmost 0); [lia|]. fold r.
  rewrite print_add_stdout, Hsum. fold col.
  rewrite (str_times_fits _ _ Hcol), print_add_stdout, add_stdout_app.
  unfold str_mul. now rewrite Nat2Z.id.
Qed.

(** X7. When the rightmost parse point is the end of the tokens, the
    caret stands two columns after the last character of the joined
    line: past the separator that would follow the last token.  The
    joined line is shorter than the longest string Python can hold. *)
Theorem print_token_parse_caret_at_end (tokens : list string) (w : world C) :
  tokens <> [] ->
  len_str (join " " tokens) < maxsize ->
  print_token_parse_caret C {| to_tokens := tokens; to_rightmost := len tokens |} w
  = (add_stdout w
       [print_text [join " " tokens];
        print_text [repeat_str " " (String.length (join " " tokens) + 1) ++ "^"]],
     Ret tt).
Proof.
  intros Hne Hlen.
  unfold print_token_parse_caret, bind, lift.
  cbn [to_tokens to_rightmost]. unfold slice_to, len.
  destruct (Z.ltb_spec (Z.of_nat (List.length tokens)) 0); [lia|].
  rewrite Nat2Z.id, firstn_all, sum_lengths, (tokens_width_join tokens Hne).
  rewrite print_add_stdout, str_times_fits
    by (unfold fits_index, len_str, maxsize in *; lia).
  rewrite print_add_stdout, add_stdout_app.
  unfold str_mul. now rewrite Nat2Z.id.
Qed.

End DriverMore.

Lemma print_token_parse_caret_aligned_witness :
  print_token_parse_caret Toy.calculator
    {| to_tokens := ["12"; "+"; "x"]; to_rightmost := 2 |} Toy.booted
  = (add_stdout Toy.booted [print_text ["12 + x"]; print_text ["     ^"]], Ret tt).
Proof.
  refine (proj1 (print_token_parse_caret_aligned Toy.calculator
                   ["12"; "+"; "x"] 2 Toy.booted _ _)).
  - discriminate.
  - split; [discriminate|reflexivity].
Defined.

Lemma print_token_parse_caret_at_end_witness :
  print_token_parse_caret Toy.calculator
    {| to_tokens := ["1"; "+"]; to_rightmost := 2 |} Toy.booted
  = (add_stdout Toy.booted [print_text ["1 +"]; print_text ["    ^"]], Ret tt).
Proof.
  exact (print_token_parse_caret_at_end Toy.calculator ["1"; "+"] Toy.booted
           ltac:(discriminate) eq_refl).
Defined.

Section DriverPaths.

Context (C : Calculator).

Ltac unfold_driver :=
  unfold run_source, load_source, main_except, try_except, new_Interpereter,
    run_with_timeout, call_run_async, method, call, print, write, emit,
    alloc, load, store, lift, raise, ret, bind.

(** *** File mode *)

(** X8. Without the compile flag, [main] creates one interpreter with
    the trace flag of the command line, runs it once and prints the
    result, also when the result is [None]. *)
Theorem main_runs_and_prints (h : Host) (args : Args) (filename code : string)
    (tokens : Tokens C) (ast : Ast C) (btc : Program C)
    (o o' : Obj (Machine C)) (result : option (Value C)) :
  List.length (argv h) <> 1%nat ->
  parse_arguments h = Ret args ->
  args_compile args = false ->
  proc_filename (args_filename args) = Ret filename ->
  read_file h filename = Ret code ->
  parse C code filename = Ret (tokens, ast) ->
  wrap_with_runtime C (CodeBuilder C) (Some (Parsed ast)) (Some false) = Ret btc ->
  Interpereter C btc (Some (args_trace args)) None = Ret o ->
  run C o = (o', Ret result) ->
  main C h (initial C)
  = ({| stdout := [print_text [match result with
                               | Some v => str_value C v
                               | None => "None"
                               end]];
        tracebacks := [];
        calls := [EvOpen C filename; EvParse C code filename;
                  EvWrap C (Some (Parsed ast)) (Some false);
                  EvInterpereter C 0; EvRun C 0];
        heap := [o'] |}, Ret tt).
Proof.
  intros Hlen Hargs Hcompile Hname Hread Hparse Hwrap Hnew Hrun.
  rewrite main_is_main_file by assumption.
  destruct args as [name tracing compiling]. cbn in Hcompile, Hname, Hnew.
  subst compiling.
  unfold main_file. unfold_driver. rewrite Hargs. cbn. rewrite Hname. cbn.
  rewrite Hread. cbn. rewrite Hparse. cbn. rewrite Hwrap. cbn.
  rewrite Hnew. cbn. rewrite Hrun. cbn. destruct result; reflexivity.
Qed.

(** *** The interactive loop *)

(** X9. The session starts by wrapping a fresh builder without a tree,
    creating one interpreter on it and running it once; the loop then
    starts with both displays off.  When that first run raises, the
    exception leaves the session before any prompt is written. *)
Theorem interactive_terminal_starts (program : Program C) (o o' : Obj (Machine C))
    (r : outcome (option (Value C))) (lines : list string) :
  wrap_with_runtime C (CodeBuilder C) None None = Ret program ->
  Interpereter C program None (Some (CodeBuilder C)) = Ret o ->
  run C o = (o', r) ->
  let booted := {| stdout := []; tracebacks := [];
                   calls := [EvWrap C None None; EvInterpereter C 0; EvRun C 0];
                   heap := [o'] |} in
  interactive_terminal C lines (initial C)
  = match r with
    | Ret _ => repl C lines {| show_tree := false; show_parsepoint := false;
                               interpereter := 0; line_count := 0 |} booted
    | Raise e => (booted, Raise e)
    | Diverge => (booted, Diverge)
    end.
Proof.
  intros Hwrap Hnew Hrun booted.
  unfold interactive_terminal. unfold_driver. rewrite Hwrap. cbn.
  rewrite Hnew. cbn. rewrite Hrun. cbn. destruct r; reflexivity.
Qed.

(** X10. An iteration that goes on to the next line has counted the
    line and has kept the interpreter; the tree flag changes on
    [:tree] only, and the parse point flag on [:parsepoint] only. *)
Theorem step_keeps_locals (st st' : locals) (line : string) (w w' : world C) :
  step C st line w = (w', Ret (Some st')) ->
  line_count st' = line_count st + 1
  /\ interpereter st' = interpereter st
  /\ show_tree st'
     = (if String.eqb line ":tree" then negb (show_tree st) else show_tree st)
  /\ show_parsepoint st'
     = (if String.eqb line ":parsepoint" then negb (show_parsepoint st)
        else show_parsepoint st).
Proof.
  unfold step.
  destruct (String.eqb_spec line "") as [->|_]; [discriminate|].
  destruct (String.eqb_spec line ":tree") as [->|_];
    [intros [= <- <-]; repeat split|].
  destruct (String.eqb_spec line ":parsepoint") as [->|_];
    [intros [= <- <-]; repeat split|].
  destruct (String.eqb_spec line ":trace") as [->|_].
  { unfold bind, load, store, ret. cbn.
    destruct (nth_error (heap w) (interpereter st)); [|discriminate].
    intros [= <- <-]. repeat split. }
  destruct (String.eqb_spec line ":cache") as [->|_].
  { unfold bind, load, ret. cbn.
    destruct (nth_error (heap w) (interpereter st)); [|discriminate].
    rewrite print_cache_rows. intros [= <- <-]. repeat split. }
  unfold bind.
  destruct (try_except C _ _ w) as [w1 [[]| |]]; try discriminate.
  intros [= <- <-]. repeat split.
Qed.

(** An iteration leaves the loop on the empty line only. *)
Lemma step_break (st : locals) (line : string) (w w' : world C) :
  step C st line w = (w', Ret None) -> line = "".
Proof.
  unfold step.
  destruct (String.eqb_spec line "") as [->|_]; [reflexivity|].
  destruct (String.eqb line ":tree"); [discriminate|].
  destruct (String.eqb line ":parsepoint"); [discriminate|].
  destruct (String.eqb line ":trace").
  { unfold bind, load, store, ret. cbn.
    destruct (nth_error (heap w) (interpereter st)); discriminate. }
  destruct (String.eqb line ":cache").
  { unfold bind, load, ret. cbn.
    destruct (nth_error (heap w) (interpereter st)); [|discriminate].
    rewrite print_cache_rows. discriminate. }
  unfold bind. destruct (try_except C _ _ w) as [w1 [[]| |]]; discriminate.
Qed.

(** X11. The session returns only when it has read an empty line:
    without one, it ends in an exception ([EOFError] at the end of
    input at the latest) or does not end. *)
Theorem repl_returns_on_empty_line (lines : list string) :
  forall (st : locals) (w w' : world C),
    repl C lines st w = (w', Ret tt) -> In "" lines.
Proof.
  induction lines as [|line rest IH]; intros st w w' Hrun; [discriminate|].
  rewrite repl_cons in Hrun.
  destruct (step C st line (prompted w)) as [w1 [[st1|]| |]] eqn:Hstep;
    try discriminate.
  - right. now apply IH with st1 w1 w'.
  - left. now apply step_break with st (prompted w) w1.
Qed.

(** X12. The lines that follow the first empty line are not read:
    the session is the one of the lines up to it. *)
Theorem repl_stops_at_empty_line (pre post : list string) :
  forall (st : locals) (w : world C),
    repl C (pre ++ "" :: post) st w = repl C (pre ++ [""]) st w.
Proof.
  induction pre as [|line pre IH]; intros st w.
  - cbn [app]. now rewrite !repl_cons.
  - cbn [app]. rewrite !repl_cons.
    destruct (step C st line (prompted w)) as [w1 [[st1|]| |]]; try reflexivity.
    apply IH.
Qed.

(** X13. An exception that is not an [Exception] (a keyboard
    interrupt) raised while a source line is handled is not caught: it
    ends the session, and the lines that follow are not read. *)
Theorem base_exception_ends_session (st : locals) (line : string)
    (rest : list string) (w w1 : world C) (e : exn) :
  is_source_line line = true ->
  is_Exception e = false ->
  try_body C (count_line st) line (prompted w) = (w1, Raise e) ->
  repl C (line :: rest) st w = (w1, Raise e).
Proof.
  intros Hline Hbase Htry.
  rewrite repl_cons, step_source_line by assumption.
  unfold bind, try_except. rewrite Htry.
  destruct e; try discriminate. reflexivity.
Qed.

(** The [except] clauses call nothing and touch no object. *)
Lemma except_clauses_keeps_objects (line : string) (e : exn) (w : world C) :
  heap (fst (except_clauses C line e w)) = heap w
  /\ calls (fst (except_clauses C line e w)) = calls w.
Proof.
  destruct e as [p|p|message [dbg|]| | | | | | | | |];
    unfold except_clauses, bind, lift, print, write, print_exc; cbn;
    repeat match goal with
           | |- context [format_error_place ?s ?p] =>
               destruct (format_error_place s p); cbn
           | |- context [str_times ?s ?n] => destruct (str_times s n); cbn
           end;
    split; reflexivity.
Qed.

(** X14. A line the parser rejects, whatever the exception, is handed
    to nothing else: the only call is the one to the parser, and the
    objects are left as they were. *)
Theorem rejected_line_not_executed (st : locals) (line : string) (w : world C)
    (e : exn) :
  is_source_line line = true ->
  parse C line ("iterm_" ++ str_of_int (line_count st + 1)) = Raise e ->
  heap (fst (step C st line w)) = heap w
  /\ calls (fst (step C st line w))
     = (calls w ++ [EvParse C line ("iterm_" ++ str_of_int (line_count st + 1))])%list.
Proof.
  intros Hline Hparse.
  rewrite step_source_line by assumption.
  assert (Htry : try_body C (count_line st) line w
                 = ({| stdout := stdout w; tracebacks := tracebacks w;
                       calls := calls w
                                ++ [EvParse C line
                                      ("iterm_" ++ str_of_int (line_count st + 1))];
                       heap := heap w |}, Raise e)).
  { unfold try_body, bind, call, emit, lift. cbn [line_count count_line].
    now rewrite Hparse. }
  unfold bind, try_except. rewrite Htry.
  match goal with
  | |- context [except_clauses C line e ?w1] =>
      destruct (except_clauses_keeps_objects line e w1) as [Hheap Hcalls];
      destruct (except_clauses C line e w1) as [w2 [[]| |]]
  end; cbn in *; auto.
Qed.

(** X15. An evaluation fault raised by the run within the deadline:
    the calls are those of a run that succeeds, the task is not
    cancelled, the object is left as the run left it, the fault is
    reported and the loop goes on.  The message is a string Python can
    hold and the recorded offset an index. *)
Theorem evaluation_fault_path (st : locals) (line : string) (w : world C)
    (o o1 o2 : Obj (Machine C)) (tokens : Tokens C) (ast : Ast C)
    (d : Z) (message : string) (dbg : option linking) :
  is_source_line line = true ->
  show_tree st = false ->
  nth_error (heap w) (interpereter st) = Some o ->
  parse C line ("iterm_" ++ str_of_int (line_count st + 1)) = Ret (tokens, ast) ->
  prepare_extra_code C (prepared ast) o = (o1, Ret tt) ->
  needs (run_async C o1) = Some d ->
  d <= 5 ->
  completes (run_async C o1) = (o2, Raise (EvaluationError message dbg)) ->
  well_formed_fault (EvaluationError message dbg) ->
  exists report : list string,
    step C st line w
    = ({| stdout := stdout w ++ report;
          tracebacks := tracebacks w;
          calls := calls w
                   ++ [EvParse C line ("iterm_" ++ str_of_int (line_count st + 1));
                       EvPrepare C (interpereter st) (prepared ast);
                       EvRunAsync C (interpereter st);
                       EvWaitFor C (interpereter st) (Some 5)];
          heap := set_nth (heap w) (interpereter st) o2 |},
       Ret (Some (count_line st)))
    /\ In (print_text [message]) report.
Proof.
  intros Hline Htree Hobj Hparse Hprep Hneeds Hd Hdone Hwf.
  assert (Hbody : try_body C (count_line st) line w
                  = ({| stdout := stdout w; tracebacks := tracebacks w;
                        calls := calls w
                                 ++ [EvParse C line
                                       ("iterm_" ++ str_of_int (line_count st + 1));
                                     EvPrepare C (interpereter st) (prepared ast);
                                     EvRunAsync C (interpereter st);
                                     EvWaitFor C (interpereter st) (Some 5)];
                        heap := set_nth (heap w) (interpereter st) o2 |},
                     Raise (EvaluationError message dbg))).
  { unfold prepared in *. unfold try_body.
    change (show_tree (count_line st)) with (show_tree st). rewrite Htree.
    change (interpereter (count_line st)) with (interpereter st).
    change (line_count (count_line st)) with (line_count st + 1).
    unfold_driver. rewrite Hparse. cbn. rewrite Hobj. cbn. rewrite Hprep. cbn.
    rewrite (nth_error_set_nth _ _ _ _ Hobj). cbn.
    unfold wait_for. rewrite Hneeds.
    destruct (Z.leb_spec d 5); [|lia]. rewrite Hdone. cbn.
    rewrite set_nth_twice, <- !app_assoc. reflexivity. }
  match type of Hbody with
  | _ = (?w1, _) =>
      destruct (except_clauses_calculator_fault C line
                  (EvaluationError message dbg) w1 eq_refl Hwf)
        as [report [Hrun Hreport]]
  end.
  exists report. split.
  - rewrite step_source_line by assumption.
    unfold bind, try_except. rewrite Hbody, Hrun. reflexivity.
  - destruct dbg as [dbg|].
    + destruct Hreport as [place [_ ->]]. simpl. auto.
    + rewrite Hreport. simpl. auto.
Qed.

End DriverPaths.

Lemma main_parse_fault_reported_witness :
  main Toy.calculator (Toy.host ")" false false) (initial Toy.calculator)
  = ({| stdout := [print_text [window 1 0 "" ")" ""]]; tracebacks := [];
        calls := [EvOpen Toy.calculator "prog"; EvParse Toy.calculator ")" "prog"];
        heap := [] |}, Ret tt).
Proof.
  assert (Hfits : fits_index 0) by (split; discriminate).
  destruct (main_parse_fault_reported Toy.calculator (Toy.host ")" false false)
              {| args_filename := "prog"; args_trace := false; args_compile := false |}
              "prog" ")" 0 ltac:(discriminate) eq_refl eq_refl eq_refl eq_refl
              Hfits)
    as [place [Hplace Hmain]].
  rewrite Hmain. injection Hplace as <-. reflexivity.
Defined.

Lemma main_runs_and_prints_witness :
  main Toy.calculator (Toy.host "1+1" true false) (initial Toy.calculator)
  = ({| stdout := [print_text ["3"]]; tracebacks := [];
        calls := [EvOpen Toy.calculator "prog"; EvParse Toy.calculator "1+1" "prog";
                  EvWrap Toy.calculator (Some (Parsed "1+1")) (Some false);
                  EvInterpereter Toy.calculator 0; EvRun Toy.calculator 0];
        heap := [{| trace := true; machine := ["1+1"] |}] |}, Ret tt).
Proof.
  exact (main_runs_and_prints Toy.calculator (Toy.host "1+1" true false)
           {| args_filename := "prog"; args_trace := true; args_compile := false |}
           "prog" "1+1" ["1+1"] "1+1" ["1+1"]
           {| trace := true; machine := ["1+1"] |}
           {| trace := true; machine := ["1+1"] |} (Some 3)
           ltac:(discriminate) eq_refl eq_refl eq_refl eq_refl eq_refl eq_refl
           eq_refl eq_refl).
Defined.

Lemma interactive_terminal_starts_witness :
  interactive_terminal Toy.calculator [""] (initial Toy.calculator)
  = repl Toy.calculator [""] Toy.started Toy.booted.
Proof.
  exact (interactive_terminal_starts Toy.calculator []
           {| trace := false; machine := [] |} {| trace := false; machine := [] |}
           (Ret None) [""] eq_refl eq_refl eq_refl).
Defined.

Lemma step_keeps_locals_witness :
  line_count (count_line Toy.started) = line_count Toy.started + 1
  /\ interpereter (count_line Toy.started) = interpereter Toy.started
  /\ show_tree (count_line Toy.started) = show_tree Toy.started
  /\ show_parsepoint (count_line Toy.started) = show_parsepoint Toy.started.
Proof.
  exact (step_keeps_locals Toy.calculator Toy.started (count_line Toy.started)
           ":trace" Toy.booted
           {| stdout := []; tracebacks := []; calls := calls Toy.booted;
              heap := [{| trace := true; machine := [] |}] |} eq_refl).
Defined.

Lemma repl_returns_on_empty_line_witness : In "" [":tree"; ""; "1+1"].
Proof.
  exact (repl_returns_on_empty_line Toy.calculator [":tree"; ""; "1+1"]
           Toy.started Toy.booted (add_stdout Toy.booted ["> "; "> "]) eq_refl).
Defined.

Lemma rejected_line_not_executed_witness :
  heap (fst (step Toy.calculator Toy.started "$" Toy.booted)) = heap Toy.booted
  /\ calls (fst (step Toy.calculator Toy.started "$" Toy.booted))
     = (calls Toy.booted ++ [EvParse Toy.calculator "$" "iterm_1"])%list.
Proof.
  exact (rejected_line_not_executed Toy.calculator Toy.started "$" Toy.booted
           (TokenizationFailed 0) eq_refl eq_refl).
Defined.

Lemma evaluation_fault_path_witness :
  exists report : list string,
    step Toy.calculator Toy.started "boom" Toy.booted
    = ({| stdout := report; tracebacks := [];
          calls := calls Toy.booted
                   ++ [EvParse Toy.calculator "boom" "iterm_1";
                       EvPrepare Toy.calculator 0 (prepared "boom");
                       EvRunAsync Toy.calculator 0;
                       EvWaitFor Toy.calculator 0 (Some 5)];
          heap := [{| trace := false; machine := ["boom"] |}] |},
       Ret (Some (count_line Toy.started)))
    /\ In (print_text ["boom"]) report.
Proof.
  assert (Hwf : well_formed_fault (EvaluationError "boom" None))
    by (split; [discriminate|exact I]).
  exact (evaluation_fault_path Toy.calculator Toy.started "boom" Toy.booted
           {| trace := false; machine := [] |}
           {| trace := false; machine := ["boom"] |}
           {| trace := false; machine := ["boom"] |}
           ["boom"] "boom" 0 "boom" None
           eq_refl eq_refl eq_refl eq_refl eq_refl eq_refl ltac:(discriminate)
           eq_refl Hwf).
Defined.

Section DriverToggles.

Context (C : Calculator).

Lemma set_nth_same {A : Type} (l : list A) :
  forall i a, nth_error l i = Some a -> set_nth l i a = l.
Proof.
  induction l as [|x l IH]; intros [|i] a H; simpl in *; try discriminate.
  - now injection H as ->.
  - now rewrite IH.
Qed.

Lemma step_trace (st : locals) (w : world C) (o : Obj (Machine C)) :
  nth_error (heap w) (interpereter st) = Some o ->
  step C st ":trace" w
  = ({| stdout := stdout w; tracebacks := tracebacks w; calls := calls w;
        heap := set_nth (heap w) (interpereter st)
                  {| trace := negb (trace o); machine := machine o |} |},
     Ret (Some (count_line st))).
Proof.
  intros Hobj. unfold step. cbn. unfold bind, load, store, ret. cbn.
  now rewrite Hobj.
Qed.

(** X17. Two [:trace] commands in a row leave every object as it was:
    the session goes on as if two lines had been read and nothing
    else had happened. *)
Theorem trace_twice_restores (st : locals) (rest : list string) (w : world C)
    (o : Obj (Machine C)) :
  nth_error (heap w) (interpereter st) = Some o ->
  repl C (":trace" :: ":trace" :: rest) st w
  = repl C rest (count_line (count_line st)) (prompted (prompted w)).
Proof.
  intros Hobj.
  rewrite repl_cons, (step_trace st (prompted w) o Hobj).
  rewrite repl_cons.
  match goal with
  | |- context [step C (count_line st) ":trace" ?w1] =>
      rewrite (step_trace (count_line st) w1
                 {| trace := negb (trace o); machine := machine o |})
        by (cbn; now apply nth_error_set_nth with o)
  end.
  f_equal. unfold prompted, add_stdout. cbn. f_equal.
  rewrite set_nth_twice, negb_involutive.
  apply set_nth_same. now destruct o.
Qed.

End DriverToggles.

Lemma trace_twice_restores_witness :
  repl Toy.calculator [":trace"; ":trace"; ""] Toy.started Toy.booted
  = (add_stdout Toy.booted ["> "; "> "; "> "], Ret tt).
Proof.
  exact (trace_twice_restores Toy.calculator Toy.started [""] Toy.booted
           {| trace := false; machine := [] |} eq_refl).
Defined.

Lemma base_exception_ends_session_witness :
  repl Interrupt.calculator ["1+1"; "2"] Toy.started Interrupt.booted
  = ({| stdout := ["> "]; tracebacks := [];
        calls := calls Interrupt.booted
                 ++ [EvParse Interrupt.calculator "1+1" "iterm_1";
                     EvPrepare Interrupt.calculator 0 (prepared "1+1");
                     EvRunAsync Interrupt.calculator 0;
                     EvWaitFor Interrupt.calculator 0 (Some 5)];
        heap := [{| trace := false; machine := ["1+1"] |}] |},
     Raise (BaseOnly "KeyboardInterrupt")).
Proof.
  exact (base_exception_ends_session Interrupt.calculator Toy.started "1+1" ["2"]
           Interrupt.booted _ (BaseOnly "KeyboardInterrupt")
           eq_refl eq_refl eq_refl).
Defined.
